(** * swiftpass.js: the signing and dispatch core of the gateway client

    A shallow embedding of [lib/swiftpass.js].  JavaScript objects used as
    field mappings are insertion-ordered association lists with unique keys;
    field values are the scalars the client is fed (undefined, null,
    booleans, integer-valued numbers, strings).  The libraries the module
    [require]s (md5, sha1, xml2js, request, https, url) and the two built-ins
    [Math.random] and [encodeURIComponent] are capabilities of an
    environment record; the calls to the digests, to the XML builder and
    parser and to the two transports are recorded in a trace, in the order
    they are made, so that statements about what was, or was not, computed
    and sent can be made.  A callback-style method is modelled by what its
    callback receives.

    A library call may throw: the XML builder does on a character or a key
    XML has no place for, [https.request] on a certificate it cannot read.
    What is thrown leaves the method at once, and no callback is made.

    Strings are the UTF-8 encodings of the JavaScript strings, byte by byte,
    as the source file encodes its own literals; a string with an unpaired
    surrogate has no encoding and is outside the model.  Bytes compare as
    code points do, which is how [Array.prototype.sort] orders strings as
    long as no character beyond U+FFFF meets one from U+E000 on.  Numbers
    are the integers, printed in decimal (JavaScript prints an integer of
    magnitude below 10^21 that way); fractional numbers, NaN and the
    infinities are outside the model, and so are array- or object-valued
    request fields. *)

From stdpp Require Import base list strings sorting.
From Stdlib Require Import ZArith Ascii DecimalString.

Open Scope string_scope.
Open Scope list_scope.
Set Warnings "-register-all".
Set Default Proof Using "Type".

(** ** JavaScript values and strings *)

Inductive value :=
  | VUndefined
  | VNull
  | VBool (b : bool)
  | VNum (n : Z)
  | VStr (s : string).

#[global] Instance value_eq_dec : EqDecision value.
Proof. solve_decision. Defined.

(** [Number.prototype.toString] on an integer. *)
Definition Z_toString (n : Z) : string :=
  NilZero.string_of_int (Z.to_int n).

(** The abstract operation ToString, which string concatenation applies to
    its operands; [v.toString()] computes the same text wherever it is
    defined (everywhere but on undefined and null). *)
Definition ToString (v : value) : string :=
  match v with
  | VUndefined => "undefined"
  | VNull => "null"
  | VBool true => "true"
  | VBool false => "false"
  | VNum n => Z_toString n
  | VStr s => s
  end.

(** ToBoolean: what [if (v)], [!v] and [v || w] test. *)
Definition truthy (v : value) : bool :=
  match v with
  | VUndefined | VNull => false
  | VBool b => b
  | VNum n => negb (n =? 0)%Z
  | VStr s => negb (String.eqb s "")
  end.

(** [a || b] *)
Definition js_or (a b : value) : value := if truthy a then a else b.

Definition upper_ascii (a : ascii) : ascii :=
  let n := N_of_ascii a in
  if ((97 <=? n) && (n <=? 122))%N then ascii_of_N (n - 32) else a.

(** [String.prototype.toUpperCase] on ASCII text, such as the hex digits a
    digest is made of; a letter beyond ASCII is left as it is. *)
Fixpoint toUpperCase (s : string) : string :=
  match s with
  | EmptyString => EmptyString
  | String a rest => String (upper_ascii a) (toUpperCase rest)
  end.

(** [Array.prototype.join] on an array of strings. *)
Definition join (sep : string) (l : list string) : string := String.concat sep l.

(** [String.prototype.charAt] *)
Definition charAt (s : string) (i : nat) : string :=
  match String.get i s with
  | Some a => String a EmptyString
  | None => EmptyString
  end.

(** [String.prototype.split] with a one-character separator: the pieces
    between the separators, one piece when there is none. *)
Definition push_char (a : ascii) (pieces : list string) : list string :=
  match pieces with
  | [] => [String a EmptyString]
  | p :: rest => String a p :: rest
  end.

Fixpoint split_on (sep : ascii) (s : string) : list string :=
  match s with
  | EmptyString => [EmptyString]
  | String a rest =>
      if Ascii.eqb a sep then EmptyString :: split_on sep rest
      else push_char a (split_on sep rest)
  end.

Definition LF : ascii := "010"%char.
Definition CR : ascii := "013"%char.
Definition CRLF : string := String CR (String LF EmptyString).

(** [s.split(/\r?\n/)]: a line feed, with the carriage return before it
    when there is one, separates two rows. *)
Fixpoint split_lines (s : string) : list string :=
  match s with
  | EmptyString => [EmptyString]
  | String a rest =>
      if Ascii.eqb a LF then EmptyString :: split_lines rest
      else
        match rest with
        | String b rest' =>
            if Ascii.eqb a CR && Ascii.eqb b LF
            then EmptyString :: split_lines rest'
            else push_char a (split_lines rest)
        | EmptyString => push_char a (split_lines rest)
        end
  end.

(** The bytes of a string, and the string of some bytes. *)
Fixpoint chars_of (s : string) : list ascii :=
  match s with
  | EmptyString => []
  | String a rest => a :: chars_of rest
  end.

Fixpoint string_of_chars (l : list ascii) : string :=
  match l with
  | [] => EmptyString
  | a :: rest => String a (string_of_chars rest)
  end.

(** The white space of the ASCII range: tab, line feed, vertical tab, form
    feed, carriage return and space. *)
Definition is_space (a : ascii) : bool :=
  let n := N_of_ascii a in
  ((9 <=? n) && (n <=? 13) || (n =? 32))%N.

(** The white space of two bytes: U+00A0, the no-break space (C2 A0). *)
Definition is_space2 (a b : ascii) : bool :=
  Ascii.eqb a "194" && Ascii.eqb b "160".

(** The white space of three bytes: U+1680 (E1 9A 80), U+2000 to U+200A
    (E2 80 80 to E2 80 8A), the line and paragraph separators U+2028 and
    U+2029 (E2 80 A8, E2 80 A9), U+202F (E2 80 AF), U+205F (E2 81 9F),
    U+3000 (E3 80 80) and the byte order mark U+FEFF (EF BB BF).  U+180E,
    which Unicode counted as a space up to version 6.2, is not among
    them. *)
Definition is_space3 (a b c : ascii) : bool :=
  let n := N_of_ascii c in
  Ascii.eqb a "225" && Ascii.eqb b "154" && Ascii.eqb c "128"
  || Ascii.eqb a "226" && Ascii.eqb b "128"
     && ((128 <=? n) && (n <=? 138) || (n =? 168) || (n =? 169) || (n =? 175))%N
  || Ascii.eqb a "226" && Ascii.eqb b "129" && Ascii.eqb c "159"
  || Ascii.eqb a "227" && Ascii.eqb b "128" && Ascii.eqb c "128"
  || Ascii.eqb a "239" && Ascii.eqb b "187" && Ascii.eqb c "191".

(** How many bytes the white-space character takes that some bytes start
    with, 0 when they start with none; [two] and [three] tell the
    characters of two and of three bytes. *)
Definition space_at (two : ascii → ascii → bool)
    (three : ascii → ascii → ascii → bool) (l : list ascii) : nat :=
  match l with
  | a :: rest =>
      if is_space a then 1
      else
        match rest with
        | b :: rest' =>
            if two a b then 2
            else
              match rest' with
              | c :: _ => if three a b c then 3 else 0
              | [] => 0
              end
        | [] => 0
        end
  | [] => 0
  end.

(** The white space [String.prototype.trim] strips is WhiteSpace and
    LineTerminator of the language: the characters above.  [space_ahead]
    looks at the start of some bytes, [space_behind] at their end, the
    bytes being given last to first. *)
Definition space_ahead : list ascii → nat := space_at is_space2 is_space3.

Definition space_behind : list ascii → nat :=
  space_at (λ c b, is_space2 b c) (λ c b a, is_space3 a b c).

(** Dropping the white-space characters some bytes start with; [skip] bytes
    of a character found are still to be dropped. *)
Fixpoint strip (space : list ascii → nat) (skip : nat) (l : list ascii)
    : list ascii :=
  match l with
  | [] => []
  | a :: rest =>
      match skip with
      | S k => strip space k rest
      | O =>
          match space l with
          | O => l
          | S k => strip space k rest
          end
      end
  end.

Definition trim_start (l : list ascii) : list ascii := strip space_ahead 0 l.

Definition trim_end (l : list ascii) : list ascii :=
  rev (strip space_behind 0 (rev l)).

(** [String.prototype.trim] *)
Definition trim (s : string) : string :=
  string_of_chars (trim_end (trim_start (chars_of s))).

(** One white-space character, and a run of them. *)
Definition is_white_space (c : string) : bool :=
  negb (String.eqb c "")
  && (space_ahead (chars_of c) =? String.length c)%nat.

Inductive blank : string → Prop :=
  | blank_nil : blank ""
  | blank_cons (c s : string) :
      is_white_space c = true → blank s → blank (c +:+ s).

(** Whether a text starts, or ends, with a white-space character. *)
Definition starts_blank (s : string) : bool :=
  negb (space_ahead (chars_of s) =? 0)%nat.

Definition ends_blank (s : string) : bool :=
  negb (space_behind (rev (chars_of s)) =? 0)%nat.

(** Rows written one after the other, each row after the first with the
    line break before it: a carriage return and a line feed, or a line feed
    alone. *)
Fixpoint unsplit_lines (row : string) (rest : list (bool * string)) : string :=
  match rest with
  | [] => row
  | (crlf, r) :: rest' =>
      row +:+ (if crlf : bool then CRLF else String LF "") +:+ unsplit_lines r rest'
  end.

(** [Array.prototype.slice(start, end)]: a negative index counts from the
    end, and both are clamped to the array. *)
Definition slice {A} (start end_ : Z) (l : list A) : list A :=
  let len := Z.of_nat (length l) in
  let clamp i := if (i <? 0)%Z then Z.max (len + i) 0 else Z.min i len in
  let from := clamp start in
  let to := clamp end_ in
  take (Z.to_nat (to - from)) (drop (Z.to_nat from) l).

(** The order [Array.prototype.sort] uses without a comparator: strings by
    their characters' codes, here byte by byte. *)
Definition str_le (a b : string) : Prop := Is_true (String.leb a b).

#[global] Instance str_le_dec : RelDecision str_le.
Proof. intros a b. unfold str_le. apply _. Defined.

(** [Array.prototype.sort] on strings.  Which algorithm an engine runs is
    not observable on strings: the sorted arrangement is unique. *)
Definition sort (l : list string) : list string := merge_sort str_le l.

(** ** Objects used as field mappings *)

Abbreviation obj := (list (string * value)).

(** [o[k]] *)
Fixpoint obj_get (k : string) (o : obj) : value :=
  match o with
  | [] => VUndefined
  | (k', v) :: o' => if String.eqb k k' then v else obj_get k o'
  end.

(** [o[k] = v]: an existing key keeps its place, a new one goes last. *)
Fixpoint obj_set (k : string) (v : value) (o : obj) : obj :=
  match o with
  | [] => [(k, v)]
  | (k', v') :: o' =>
      if String.eqb k k' then (k, v) :: o' else (k', v') :: obj_set k v o'
  end.

(** [delete o[k]] *)
Definition obj_delete (k : string) (o : obj) : obj :=
  filter (λ kv, kv.1 ≠ k) o.

(** [Object.keys(o)], also the order of [for (key in o)]: the order of
    insertion, for keys that are not array indices. *)
Definition keys (o : obj) : list string := o.*1.

(** An object has each key once. *)
Definition wf_obj (o : obj) : Prop := NoDup (keys o).

(** An object literal [{k1: v1, k2: v2, ...}]. *)
Definition obj_literal (l : list (string * value)) : obj :=
  fold_left (λ acc kv, obj_set kv.1 kv.2 acc) l [].

(** underscore's [_.extend(dst, src)]: every key of [src] is assigned on
    [dst], in the order of [src]. *)
Definition _extend (dst src : obj) : obj :=
  fold_left (λ acc kv, obj_set kv.1 kv.2 acc) src dst.

(** underscore's [_.clone(o)]: a shallow copy; values here are immutable. *)
Definition _clone (o : obj) : obj := o.

(** ** Errors, decoded documents and what a callback receives *)

(** What travels in the error position of a callback, or is thrown. *)
Inductive jsError :=
  | ErrText (s : string)               (* a bare string *)
  | ErrObject (name message : string). (* an [Error] with its name and message *)

(** [error.name] *)
Definition error_name (e : jsError) : option string :=
  match e with
  | ErrText _ => None
  | ErrObject name _ => Some name
  end.

(** A property read or a call on undefined: the engine throws a TypeError. *)
Definition TypeError : jsError := ErrObject "TypeError" "undefined value".

(** What xml2js hands back for an element (with [explicitArray: false]):
    its text, or an object of its children. *)
Inductive xmlvalue :=
  | XText (s : string)
  | XObj (fields : list (string * xmlvalue)).

(** What [xml2js.parseString] passes to its callback: an error, nothing at
    all (an empty body), or an object with the root element as only key. *)
Inductive parsed :=
  | ParseFail (message : string)
  | ParseNone
  | ParseRoot (root : string) (content : xmlvalue).

(** [data.k] on a decoded element; a string has no such property. *)
Fixpoint xml_get (k : string) (fields : list (string * xmlvalue)) : option xmlvalue :=
  match fields with
  | [] => None
  | (k', x) :: rest => if String.eqb k k' then Some x else xml_get k rest
  end.

Definition xml_prop (k : string) (d : xmlvalue) : option xmlvalue :=
  match d with
  | XText _ => None
  | XObj fields => xml_get k fields
  end.

(** ToBoolean on a decoded property ([None] is undefined). *)
Definition xml_truthy (x : option xmlvalue) : bool :=
  match x with
  | None => false
  | Some (XText s) => negb (String.eqb s "")
  | Some (XObj _) => true
  end.

(** The second argument of a callback. *)
Inductive payload :=
  | NoData                 (* the callback got the error alone *)
  | RawBody (body : string)
  | Decoded (d : xmlvalue).

(** [callback(err, data)]; [err = None] is [null]. *)
Record reply := Reply { reply_err : option jsError; reply_data : payload }.

(** ** The environment and the trace of calls into it *)

(** What a call returns, or throws. *)
Inductive result (A : Type) :=
  | Ok (a : A)
  | Throw (e : jsError).
Arguments Ok {A} a.
Arguments Throw {A} e.

(** A call into one of the required libraries. *)
Inductive call :=
  | CallDigest (alg input : string)                 (* md5(s), sha1(s) *)
  | CallBuildXml (o : obj)                          (* builder.buildObject({xml: o}) *)
  | CallHttp (url body : string)                    (* request({url, method: 'POST', body}) *)
  | CallHttps (host path : string) (pfx passphrase : value) (body : string)
                                                    (* https.request({...}) and write(body) *)
  | CallParseXml (body : string).                   (* xml2js.parseString(body, ...) *)

Record Env := {
  md5 : string → string;
  sha1 : string → string;
  (** [Math.floor(Math.random() * maxPos)] at the n-th draw *)
  random_floor : nat → nat → nat;
  (** [encodeURIComponent(s)]; it throws on an unpaired surrogate only *)
  encodeURIComponent : string → string;
  (** [new xml2js.Builder(...).buildObject({xml: o})]: the document, or
      what the builder throws *)
  buildObject : obj → result string;
  (** the [request] library: what its callback receives, an error or the
      response body, unless the call throws *)
  http_post : string → string → result (jsError + string);
  (** [https.request] with a client certificate, likewise *)
  https_post : string → string → value → value → string
               → result (jsError + string);
  (** [url.parse(u)]: its [host] and [path] *)
  url_parse : string → string * string;
  (** [xml2js.parseString(body, {trim: true, explicitArray: false}, ...)] *)
  parseString : string → parsed
}.

Record world := World { draws : nat; calls : list call }.

Definition world0 : world := World 0 [].

(** Computations that read the random source, call the libraries and may
    throw. *)
Definition M (A : Type) : Type := world → result A * world.

#[global] Instance M_ret : MRet M := λ A a w, (Ok a, w).
#[global] Instance M_bind : MBind M := λ A B f m w,
  match m w with
  | (Ok a, w') => f a w'
  | (Throw e, w') => (Throw e, w')
  end.

Definition throw {A} (e : jsError) : M A := λ w, (Throw e, w).

Definition lift {A} (r : result A) : M A := λ w, (r, w).

Definition record (c : call) : M unit :=
  λ w, (Ok (), World (draws w) (calls w ++ [c])).

Definition draw (maxPos : nat) (E : Env) : M nat :=
  λ w, (Ok (random_floor E (draws w) maxPos), World (S (draws w)) (calls w)).

(** ** The client *)

Definition URL : string := "https://pay.swiftpass.cn/pay/gateway".

Module URLS.
Definition UNIFIED_ORDER := "pay.weixin.native".
Definition JS_PAY := "pay.weixin.jspay".
Definition ORDER_QUERY := "unified.trade.query".
Definition REFUND := "unified.trade.refund".
Definition REFUND_QUERY := "unified.trade.refundquery".
Definition CLOSE_ORDER := "unified.trade.close".
End URLS.

(** The argument of the constructor. *)
Record config := {
  cfg_subAppId : value;
  cfg_partnerKey : value;
  cfg_mchId : value;
  cfg_notifyUrl : value;
  cfg_passphrase : value;
  cfg_pfx : value
}.

(** The fields of [this]. [subMchId] is read by the client and never set. *)
Record client := {
  subAppId : value;
  partnerKey : value;
  mchId : value;
  notifyUrl : value;
  passphrase : value;
  pfx : value
}.

Definition subMchId (self : client) : value := VUndefined.

Definition Swiftpass (c : config) : client := {|
  subAppId := cfg_subAppId c;
  partnerKey := cfg_partnerKey c;
  mchId := cfg_mchId c;
  notifyUrl := cfg_notifyUrl c;
  passphrase := js_or (cfg_passphrase c) (cfg_mchId c);
  pfx := cfg_pfx c
|}.

Record options := { opt_https : bool; opt_required : list string }.

Section Client.
Context (E : Env) (self : client).

(** The alphabet [chars] of [_generateNonceStr]. *)
Definition nonce_chars : string :=
  "ABCDEFGHIJKLMNOPQRSTUVWXYZabcdefghijklmnopqrstuvwxyz0123456789".

(** The loop of [_generateNonceStr], with [n] rounds to go: each round
    appends the character at a random position. *)
Fixpoint nonce_loop (n : nat) (noceStr : string) : M string :=
  match n with
  | O => mret noceStr
  | S n' =>
      i ← draw (String.length nonce_chars) E;
      nonce_loop n' (noceStr +:+ charAt nonce_chars i)
  end.

(** [_generateNonceStr(length)]: [length || 32] characters. *)
Definition _generateNonceStr (length : option nat) : M string :=
  let n := match length with
           | None | Some O => 32%nat
           | Some n => n
           end in
  nonce_loop n "".

(** [_toQueryString(object)] *)
Definition _toQueryString (object : obj) : string :=
  join "&"
    (map (λ key, key +:+ "=" +:+ ToString (obj_get key object))
       (sort
          (filter (λ key, obj_get key object ≠ VUndefined
                          ∧ obj_get key object ≠ VStr "")
             (keys object)))).

(** [signTypes[signType](s)], as far as the caller of it goes on to use the
    result as a string.  The table has the two digests.  A key can also
    name a member the table inherits from [Object.prototype]:
    [constructor] wraps [s] itself, [toString] and [toLocaleString] print
    the table; what any other key yields cannot be called, or returns
    nothing that stands for a string, and a TypeError is thrown. *)
Definition signTypes (signType s : string) : M string :=
  if String.eqb signType "MD5" then
    _ ← record (CallDigest "MD5" s); mret (md5 E s)
  else if String.eqb signType "SHA1" then
    _ ← record (CallDigest "SHA1" s); mret (sha1 E s)
  else if String.eqb signType "constructor" then mret s
  else if String.eqb signType "toString" || String.eqb signType "toLocaleString"
  then mret "[object Object]"
  else throw TypeError.

(** [_getSign(pkg, signType)] *)
Definition _getSign (pkg : obj) (signType : value) : M string :=
  let pkg := _clone pkg in
  let pkg := obj_delete "sign" pkg in
  let signType := js_or signType (VStr "MD5") in
  let string1 := _toQueryString pkg in
  let stringSignTemp := string1 +:+ "&key=" +:+ ToString (partnerKey self) in
  digest ← signTypes (ToString signType) stringSignTemp;
  mret (toUpperCase digest).

(** The table [defaults] of [_extendWithDefault], with the nonce drawn
    for this call. *)
Definition defaults (nonce : string) : obj :=
  obj_literal [
    ("sub_appid", subAppId self);
    ("mch_id", mchId self);
    ("sub_mch_id", subMchId self);
    ("nonce_str", VStr nonce);
    ("notify_url", notifyUrl self);
    ("op_user_id", mchId self);
    ("pfx", pfx self)
  ].

(** The object [extendObject] after the loop over [keysNeedExtend]. *)
Definition extendObject (defaults : obj) (keysNeedExtend : list string) : obj :=
  fold_left (λ acc k,
      if truthy (obj_get k defaults) then obj_set k (obj_get k defaults) acc
      else acc)
    keysNeedExtend [].

(** [_extendWithDefault(obj, keysNeedExtend)] *)
Definition _extendWithDefault (o : obj) (keysNeedExtend : list string) : M obj :=
  nonce ← _generateNonceStr None;
  mret (_extend (extendObject (defaults nonce) keysNeedExtend) o).

(** [buildXml(obj)] *)
Definition buildXml (o : obj) : M string :=
  _ ← record (CallBuildXml o); lift (buildObject E o).

(** [_httpRequest(url, data, callback)]: what the callback receives. *)
Definition _httpRequest (url data : string) : M (jsError + string) :=
  _ ← record (CallHttp url data); lift (http_post E url data).

(** [_httpsRequest(url, data, callback)] *)
Definition _httpsRequest (url data : string) : M (jsError + string) :=
  let parsed_url := url_parse E url in
  _ ← record (CallHttps parsed_url.1 parsed_url.2 (pfx self) (passphrase self) data);
  lift (https_post E parsed_url.1 parsed_url.2 (pfx self) (passphrase self) data).

(** The message of the error for a missing [pay_info]: the literal has two
    backspace characters (U+0008) after its first character. *)
Definition missParamMessage : string :=
  "请" +:+ String "008" (String "008" "传入支付方式").

(** The callback [validate] passes to the XML parser, applied to the
    parser's answer: what it passes on to the callback of [validate]. *)
Definition validate_callback (xml : string) (answer : parsed) : result reply :=
  match answer with
  | ParseFail message =>
      Ok (Reply (Some (ErrObject "XMLParseError" message)) (RawBody xml))
  | ParseNone =>
      (* data = {} *)
      Ok (Reply (Some (ErrObject "missParamError" missParamMessage))
            (Decoded (XObj [])))
  | ParseRoot root content =>
      if String.eqb root "xml" then
        let data := content in
        if negb (xml_truthy (xml_prop "pay_info" data)) then
          Ok (Reply (Some (ErrObject "missParamError" missParamMessage))
                (Decoded data))
        else Ok (Reply None (Decoded data))
      else
        (* json.xml is undefined, and data.pay_info throws *)
        Throw TypeError
  end.

(** [validate(xml, callback)] *)
Definition validate (xml : string) : M reply :=
  _ ← record (CallParseXml xml);
  lift (validate_callback xml (parseString E xml)).

(** The loop that stringifies every value that is neither undefined nor
    null. *)
Definition stringify (params : obj) : obj :=
  map (λ kv, match kv.2 with
             | VUndefined | VNull => kv
             | v => (kv.1, VStr (ToString v))
             end) params.

(** One required group, alternatives separated by [|]: the loop over the
    alternatives, last to first, finds one that is truthy. *)
Definition satisfied (params : obj) (key : string) : bool :=
  let alters := split_on "|" key in
  existsb (λ a, truthy (obj_get a params)) (rev alters).

(** [if (params.long_url) params.long_url = encodeURIComponent(params.long_url)] *)
Definition encode_long_url (params : obj) : obj :=
  if truthy (obj_get "long_url" params)
  then obj_set "long_url"
         (VStr (encodeURIComponent E (ToString (obj_get "long_url" params))))
         params
  else params.

(** The array [missing] after the loop over [required]. *)
Definition missing_groups (params : obj) (required : list string) : list string :=
  filter (λ key, satisfied params key = false) required.

(** [_signedQuery(url, params, options, callback)]: what the callback
    receives. *)
Definition _signedQuery (url : value) (params : obj) (opts : options) : M reply :=
  let required := opt_required opts in
  let params := obj_set "service" url params in
  params ← _extendWithDefault params ["mch_id"; "nonce_str"; "sub_appid"];
  sign ← _getSign params VUndefined;
  let params := _extend (obj_literal [("sign", VStr sign)]) params in
  let params := encode_long_url params in
  let params := stringify params in
  let missing := missing_groups params required in
  if negb (bool_decide (missing = [])) then
    mret (Reply (Some (ErrText ("missing params " +:+ join "," missing))) NoData)
  else
    let request := if opt_https opts then _httpsRequest else _httpRequest in
    xml ← buildXml params;
    r ← request URL xml;
    match r with
    | inl err => mret (Reply (Some err) NoData)
    | inr body => validate body
    end.

(** [unifiedOrder(params, callback)] *)
Definition unifiedOrder (params : obj) : M reply :=
  let requiredData :=
    ["body"; "out_trade_no"; "total_fee"; "mch_create_ip"; "mch_id"; "service"] in
  let params :=
    obj_set "notify_url" (js_or (obj_get "notify_url" params) (notifyUrl self))
      params in
  _signedQuery (js_or (obj_get "service" params) (VStr URLS.JS_PAY)) params
    {| opt_https := false; opt_required := requiredData |}.

(** [orderQuery(params, callback)] *)
Definition orderQuery (params : obj) : M reply :=
  _signedQuery (VStr URLS.ORDER_QUERY) params
    {| opt_https := false; opt_required := ["transaction_id|out_trade_no"] |}.

(** [refund(params, callback)] *)
Definition refund (params : obj) : M reply :=
  params ← _extendWithDefault params ["op_user_id"];
  _signedQuery (VStr URLS.REFUND) params
    {| opt_https := true;
       opt_required := ["transaction_id|out_trade_no"; "out_refund_no";
                        "total_fee"; "refund_fee"] |}.

(** [refundQuery(params, callback)] *)
Definition refundQuery (params : obj) : M reply :=
  _signedQuery (VStr URLS.REFUND_QUERY) params
    {| opt_https := false;
       opt_required := ["transaction_id|out_trade_no|out_refund_no|refund_id"] |}.

(** [closeOrder(params, callback)] *)
Definition closeOrder (params : obj) : M reply :=
  _signedQuery (VStr URLS.CLOSE_ORDER) params
    {| opt_https := false; opt_required := ["out_trade_no"] |}.
End Client.

(** The five transaction operations. *)
Inductive operation :=
  | UnifiedOrder | OrderQuery | Refund | RefundQuery | CloseOrder.

Definition run_operation (E : Env) (self : client) (op : operation)
    (params : obj) : M reply :=
  match op with
  | UnifiedOrder => unifiedOrder E self params
  | OrderQuery => orderQuery E self params
  | Refund => refund E self params
  | RefundQuery => refundQuery E self params
  | CloseOrder => closeOrder E self params
  end.

(** ** The report decoder *)

(** A property name computed from [titles[i]]: undefined names the property
    "undefined". *)
Definition property_key (title : option string) : string :=
  match title with
  | Some t => t
  | None => "undefined"
  end.

(** [a[1]] on the pieces of a cell. *)
Definition second (pieces : list string) : value :=
  match pieces !! 1%nat with
  | Some s => VStr s
  | None => VUndefined
  end.

(** The body of the loop over [bodys] in [toArr]: the object [rowData] of
    one row, a cell assigned under the title at its position. *)
Definition toArr_row (titles : list string) (row : string) : obj :=
  fold_left (λ rowData ic,
      obj_set (property_key (titles !! ic.1)) (second (split_on "`" ic.2)) rowData)
    (imap pair (split_on "," row)) [].

(** The inner function [toArr(rows)] of [parseCsv]; [rows[0].split] throws
    on an empty array. *)
Definition toArr (rows : list string) : result (list obj) :=
  match rows with
  | [] => Throw TypeError
  | row0 :: bodys =>
      let titles := split_on "," row0 in
      Ok (map (toArr_row titles) bodys)
  end.

Record report := Report { report_list : list obj; report_stat : option obj }.

(** [parseCsv(text)] *)
Definition parseCsv (text : string) : result report :=
  let rows := split_lines (trim text) in
  let len := Z.of_nat (length rows) in
  match toArr (slice 0 (len - 2) rows) with
  | Throw e => Throw e
  | Ok list =>
      match toArr (slice (len - 2) len rows) with
      | Throw e => Throw e
      | Ok stat => Ok (Report list (stat !! 0%nat))
      end
  end.

(** ** What the specification calls things *)

(** The digest algorithms a signature can be made with. *)
Inductive algorithm := MD5 | SHA1.

Definition algorithm_name (alg : algorithm) : string :=
  match alg with MD5 => "MD5" | SHA1 => "SHA1" end.

Definition digest (E : Env) (alg : algorithm) : string → string :=
  match alg with MD5 => md5 E | SHA1 => sha1 E end.

(** The [signType] argument that selects an algorithm; none is the
    argument left out. *)
Definition signType_of (alg : option algorithm) : value :=
  match alg with
  | None => VUndefined
  | Some a => VStr (algorithm_name a)
  end.

(** The signature as the specification words it: without the [sign] field,
    canonicalised, the secret appended, digested, in upper case. *)
Definition spec_signature (E : Env) (fields : obj) (secret : string)
    (alg : option algorithm) : string :=
  toUpperCase
    (digest E (default MD5 alg)
       (_toQueryString (obj_delete "sign" fields) +:+ "&key=" +:+ secret)).

(** The keys [_toQueryString] keeps. *)
Definition kept (o : obj) (k : string) : Prop :=
  obj_get k o ≠ VUndefined ∧ obj_get k o ≠ VStr "".

(** What the coercion loop does to one value. *)
Definition stringify_value (v : value) : value :=
  match v with
  | VUndefined | VNull => v
  | _ => VStr (ToString v)
  end.

(** The string [_getSign] digests. *)
Definition sign_input (self : client) (pkg : obj) : string :=
  _toQueryString (obj_delete "sign" pkg) +:+ "&key=" +:+ ToString (partnerKey self).

(** The text [_generateNonceStr] builds when the random source stands at
    its [d]-th draw: one character of the alphabet per draw. *)
Fixpoint nonce_text (E : Env) (n : nat) (noceStr : string) (d : nat) : string :=
  match n with
  | O => noceStr
  | S n' =>
      nonce_text E n'
        (noceStr +:+ charAt nonce_chars (random_floor E d (String.length nonce_chars)))
        (S d)
  end.

Definition nonce_at (E : Env) (d : nat) : string := nonce_text E 32 "" d.

(** The mapping an operation hands to [_signedQuery]; [nonce0] is the nonce
    drawn by the expansion [refund] does itself. *)
Definition op_params (self : client) (op : operation) (nonce0 : string)
    (params : obj) : obj :=
  match op with
  | UnifiedOrder =>
      obj_set "notify_url" (js_or (obj_get "notify_url" params) (notifyUrl self)) params
  | Refund => _extend (extendObject (defaults self nonce0) ["op_user_id"]) params
  | _ => params
  end.

(** Whether an operation goes over HTTPS with the client certificate. *)
Definition op_https (op : operation) : bool :=
  match op with Refund => true | _ => false end.

(** The mapping [_signedQuery] signs: [service] assigned, then laid over the
    defaults. *)
Definition signed_params (self : client) (nonce : string) (url : value)
    (params : obj) : obj :=
  _extend (extendObject (defaults self nonce) ["mch_id"; "nonce_str"; "sub_appid"])
    (obj_set "service" url params).

(** The mapping [_signedQuery] validates and encodes, from the one it signed. *)
Definition sent_params (E : Env) (self : client) (q : obj) : obj :=
  stringify
    (encode_long_url E
       (_extend
          (obj_literal [("sign", VStr (toUpperCase (md5 E (sign_input self q))))])
          q)).

(** The request [_signedQuery] makes with a body, and the answer to it. *)
Definition transport_call (E : Env) (self : client) (secure : bool)
    (xml : string) : call :=
  if secure
  then CallHttps (url_parse E URL).1 (url_parse E URL).2 (pfx self) (passphrase self) xml
  else CallHttp URL xml.

Definition transport_answer (E : Env) (self : client) (secure : bool)
    (xml : string) : result (jsError + string) :=
  if secure
  then https_post E (url_parse E URL).1 (url_parse E URL).2 (pfx self) (passphrase self) xml
  else http_post E URL xml.

(** Where [_signedQuery] ends up once it has the mapping [q] to sign, from a
    world [w] and after [d] draws: the digest is called; then either a group
    is missing and the caller gets the error, or the builder is called on
    the mapping; what the builder throws ends the run, and the document it
    returns is sent; what the transport throws ends the run, and otherwise
    the caller gets the transport error or what decoding the answer gives. *)
Definition pipeline_outcome (E : Env) (self : client) (secure : bool)
    (required : list string) (q : obj) (d : nat) (w : world)
    : result reply * world :=
  let p := sent_params E self q in
  let missing := missing_groups p required in
  let after := World (d + draws w) in
  let signed := calls w ++ [CallDigest "MD5" (sign_input self q)] in
  let built := signed ++ [CallBuildXml p] in
  if bool_decide (missing = []) then
    match buildObject E p with
    | Throw e => (Throw e, after built)
    | Ok xml =>
        let sent := built ++ [transport_call E self secure xml] in
        match transport_answer E self secure xml with
        | Throw e => (Throw e, after sent)
        | Ok (inl err) => (Ok (Reply (Some err) NoData), after sent)
        | Ok (inr body) =>
            (validate_callback body (parseString E body),
             after (sent ++ [CallParseXml body]))
        end
    end
  else
    (Ok (Reply (Some (ErrText ("missing params " +:+ join "," missing))) NoData),
     after signed).

(** Whether a character occurs in a string. *)
Fixpoint has_char (c : ascii) (s : string) : bool :=
  match s with
  | EmptyString => false
  | String a rest => Ascii.eqb a c || has_char c rest
  end.

(** A value that is there after the coercion to strings. *)
Definition present (v : value) : bool :=
  match v with
  | VUndefined | VNull => false
  | VStr s => negb (String.eqb s "")
  | _ => true
  end.

(** The account default of a key, given the nonce of this call. *)
Definition account_default (self : client) (nonce : string) (k : string) : value :=
  if String.eqb k "sub_appid" then subAppId self
  else if String.eqb k "mch_id" then mchId self
  else if String.eqb k "nonce_str" then VStr nonce
  else if String.eqb k "notify_url" then notifyUrl self
  else if String.eqb k "op_user_id" then mchId self
  else if String.eqb k "pfx" then pfx self
  else VUndefined.

(** The [service] an operation names, given what the caller passed. *)
Definition service_of (op : operation) (params : obj) : value :=
  match op with
  | UnifiedOrder => js_or (obj_get "service" params) (VStr URLS.JS_PAY)
  | OrderQuery => VStr URLS.ORDER_QUERY
  | Refund => VStr URLS.REFUND
  | RefundQuery => VStr URLS.REFUND_QUERY
  | CloseOrder => VStr URLS.CLOSE_ORDER
  end.

(** The draws an operation makes: one nonce in [_signedQuery], and one more
    in the expansion [refund] does itself. *)
Definition op_draws (op : operation) : nat :=
  match op with Refund => 64%nat | _ => 32%nat end.

(** The mapping an operation signs, when the random source stands at its
    [d]-th draw. *)
Definition op_signed (E : Env) (self : client) (op : operation) (params : obj)
    (d : nat) : obj :=
  signed_params self (nonce_at E (op_draws op - 32 + d)) (service_of op params)
    (op_params self op (nonce_at E d) params).

(** The mapping an operation validates, encodes and sends. *)
Definition op_sent (E : Env) (self : client) (op : operation) (params : obj)
    (d : nat) : obj :=
  sent_params E self (op_signed E self op params d).

(** The required groups of an operation. *)
Definition required_of (op : operation) : list string :=
  match op with
  | UnifiedOrder =>
      ["body"; "out_trade_no"; "total_fee"; "mch_create_ip"; "mch_id"; "service"]
  | OrderQuery => ["transaction_id|out_trade_no"]
  | Refund => ["transaction_id|out_trade_no"; "out_refund_no"; "total_fee"; "refund_fee"]
  | RefundQuery => ["transaction_id|out_trade_no|out_refund_no|refund_id"]
  | CloseOrder => ["out_trade_no"]
  end.

Definition is_transport (c : call) : bool :=
  match c with
  | CallHttp _ _ | CallHttps _ _ _ _ _ => true
  | _ => false
  end.

#[global] Instance call_eq_dec : EqDecision call.
Proof. solve_decision. Defined.

(** The calls a computation makes from a world: those it adds to the ones
    made before. *)
Definition new_calls {A} (m : M A) (w : world) : list call :=
  drop (length (calls w)) (calls (m w).2).

(** ** A stand-in environment for running the client on examples *)

Module Mock.
(** Digests and a URI encoder that keep their input in sight, a counter
    for a random source, a builder that refuses the control characters XML has no place
    for, a gateway that answers every request with [gateway_answer], and a
    decoder that knows three bodies. *)
Definition legal_char (a : ascii) : bool :=
  let n := N_of_ascii a in
  ((32 <=? n) || (n =? 9) || (n =? 10) || (n =? 13))%N.

Definition legal_text (s : string) : bool := forallb legal_char (chars_of s).

Definition render (o : obj) : result string :=
  if forallb (λ kv, legal_text kv.1 && legal_text (ToString kv.2)) o then
    Ok ("<xml>" +:+
        String.concat ""
          (map (λ kv, "<" +:+ kv.1 +:+ ">" +:+ ToString kv.2
                      +:+ "</" +:+ kv.1 +:+ ">") o)
        +:+ "</xml>")
  else Throw (ErrObject "Error" "Invalid character in string").

Definition decode (body : string) : parsed :=
  if String.eqb body "<xml><pay_info>{}</pay_info></xml>" then
    ParseRoot "xml" (XObj [("pay_info", XText "{}")])
  else if String.eqb body "<xml><status>0</status></xml>" then
    ParseRoot "xml" (XObj [("status", XText "0")])
  else if String.eqb body "<root><status>0</status></root>" then
    ParseRoot "root" (XObj [("status", XText "0")])
  else if String.eqb body "" then ParseNone
  else ParseFail "Non-whitespace before first tag.".

Definition env (gateway_answer : jsError + string) : Env := {|
  md5 := λ s, "md5(" +:+ s +:+ ")";
  sha1 := λ s, "sha1(" +:+ s +:+ ")";
  random_floor := λ n maxPos, (n mod maxPos)%nat;
  encodeURIComponent := λ s, "uri(" +:+ s +:+ ")";
  buildObject := render;
  http_post := λ _ _, Ok gateway_answer;
  https_post := λ _ _ _ _ _, Ok gateway_answer;
  url_parse := λ _, ("pay.swiftpass.cn", "/pay/gateway");
  parseString := decode
|}.

Definition paid : Env := env (inr "<xml><pay_info>{}</pay_info></xml>").

Definition account : client := Swiftpass {|
  cfg_subAppId := VStr "wx1";
  cfg_partnerKey := VStr "K";
  cfg_mchId := VStr "Y";
  cfg_notifyUrl := VUndefined;
  cfg_passphrase := VUndefined;
  cfg_pfx := VUndefined
|}.
End Mock.

(** ** The parameter builders for the in-app bridge *)

(** [this.appId]: read by [getEditAddressParams], assigned nowhere. *)
Definition appId (self : client) : value := VUndefined.

(** [data.pay_info] as [JSON.parse] takes it, that is as text; reading it
    off no data at all throws. *)
Definition pay_info_text (data : payload) : result string :=
  match data with
  | Decoded d =>
      match xml_prop "pay_info" d with
      | Some (XText s) => Ok s
      | Some (XObj _) => Ok "[object Object]"
      | None => Ok "undefined"
      end
  | RawBody _ => Ok "undefined"
  | NoData => Throw TypeError
  end.

Section Bridge.
Context (E : Env) (self : client).

(** [getEditAddressParams(data, callback)]: what the callback receives, an
    error or the parameters.  [timeStamp] is what [_generateTimeStamp()]
    returns at the call, the clock in seconds as text. *)
Definition getEditAddressParams (timeStamp : string) (data : obj) : M (jsError + obj) :=
  if negb (truthy (obj_get "url" data) && truthy (obj_get "accessToken" data)) then
    mret (inl (ErrObject "Error" "Missing url or accessToken"))
  else
    nonceStr ← _generateNonceStr E None;
    let params := obj_literal [
      ("appId", appId self);
      ("scope", VStr "jsapi_address");
      ("signType", VStr "SHA1");
      ("timeStamp", VStr timeStamp);
      ("nonceStr", VStr nonceStr)
    ] in
    let signParams := obj_literal [
      ("appid", obj_get "appId" params);
      ("url", obj_get "url" data);
      ("timestamp", obj_get "timeStamp" params);
      ("noncestr", obj_get "nonceStr" params);
      ("accesstoken", obj_get "accessToken" data)
    ] in
    let string := _toQueryString signParams in
    addrSign ← signTypes E (ToString (obj_get "signType" params)) string;
    mret (inr (obj_set "addrSign" (VStr addrSign) params)).

(** [getBrandWCPayRequestParams(order, callback)], with [JSON.parse] as a
    capability that returns a value or throws.  The object [default_params]
    is built, which draws a nonce (and reads the clock), and is not used. *)
Definition getBrandWCPayRequestParams {J : Type} (JSON_parse : string → result J)
    (order : obj) : M (jsError + J) :=
  _ ← _generateNonceStr E None;
  order ← _extendWithDefault E self order ["notify_url"];
  r ← unifiedOrder E self order;
  match reply_err r with
  | Some err => mret (inl err)
  | None =>
      text ← lift (pay_info_text (reply_data r));
      j ← lift (JSON_parse text);
      mret (inr j)
  end.
End Bridge.

(** ** More names for stating results *)

(** Whether the caller's mapping, with what the client fills in, has every
    required group of an operation. *)
Definition accepted (self : client) (op : operation) (params : obj) : bool :=
  let has k := present (obj_get k params) in
  match op with
  | UnifiedOrder =>
      has "body" && has "out_trade_no" && has "total_fee" && has "mch_create_ip"
      && (if bool_decide ("mch_id" ∈ keys params) then has "mch_id"
          else truthy (mchId self))
  | OrderQuery => has "transaction_id" || has "out_trade_no"
  | Refund =>
      (has "transaction_id" || has "out_trade_no")
      && has "out_refund_no" && has "total_fee" && has "refund_fee"
  | RefundQuery =>
      has "transaction_id" || has "out_trade_no" || has "out_refund_no"
      || has "refund_id"
  | CloseOrder => has "out_trade_no"
  end.

(** The calls an operation makes, in order, when the random source stands
    at its [d]-th draw. *)
Definition op_trace (E : Env) (self : client) (op : operation) (params : obj)
    (d : nat) : list call :=
  let q := op_signed E self op params d in
  let p := op_sent E self op params d in
  CallDigest "MD5" (sign_input self q) ::
  if bool_decide (missing_groups p (required_of op) = []) then
    CallBuildXml p ::
    match buildObject E p with
    | Throw _ => []
    | Ok xml =>
        transport_call E self (op_https op) xml ::
        match transport_answer E self (op_https op) xml with
        | Ok (inr body) => [CallParseXml body]
        | _ => []
        end
    end
  else [].

(** The order [getBrandWCPayRequestParams] hands to [unifiedOrder], when the
    random source stands at its [d]-th draw: the caller's, laid over the
    account's [notify_url]. *)
Definition brand_order (E : Env) (self : client) (order : obj) (d : nat) : obj :=
  _extend (extendObject (defaults self (nonce_at E (32 + d))) ["notify_url"]) order.

(** What a key reads in the mapping that is signed when the caller leaves
    it out: the account default, when that is truthy. *)
Definition default_or_undefined (v : value) : value :=
  if truthy v then v else VUndefined.

(** A value an XML builder is given after the coercion: text, or nothing. *)
Definition is_text_or_absent (v : value) : bool :=
  match v with
  | VUndefined | VNull | VStr _ => true
  | VBool _ | VNum _ => false
  end.

(** * Properties *)

(** ** The order on strings and the sort *)

Lemma string_compare_le_trans (a b c : string) :
  String.compare a b ≠ Gt → String.compare b c ≠ Gt → String.compare a c ≠ Gt.
Proof.
  revert b c. induction a as [|x a IH]; intros [|y b] [|z c]; simpl; try done.
  unfold Ascii.compare.
  destruct (N.compare_spec (N_of_ascii x) (N_of_ascii y));
    destruct (N.compare_spec (N_of_ascii y) (N_of_ascii z));
    destruct (N.compare_spec (N_of_ascii x) (N_of_ascii z));
    try done; try lia; eauto.
Qed.

Lemma str_le_spec (a b : string) : str_le a b ↔ String.compare a b ≠ Gt.
Proof. unfold str_le, String.leb. by destruct (String.compare a b). Qed.

#[global] Instance str_le_trans : Transitive str_le.
Proof. intros a b c. rewrite !str_le_spec. apply string_compare_le_trans. Qed.

#[global] Instance str_le_total : Total str_le.
Proof.
  intros a b. unfold str_le.
  destruct (String.leb_total a b) as [->| ->]; [by left|by right].
Qed.

#[global] Instance str_le_antisym : AntiSymm (=) str_le.
Proof.
  intros a b Hab Hba. apply String.leb_antisym; by apply Is_true_true.
Qed.

(** The order is the lexicographic one on character codes. *)
Lemma str_le_lexicographic (a b : ascii) (s t : string) :
  str_le "" s
  ∧ ¬ str_le (String a s) ""
  ∧ (str_le (String a s) (String b t) ↔
     (N_of_ascii a < N_of_ascii b)%N ∨ (a = b ∧ str_le s t)).
Proof.
  rewrite !str_le_spec. split_and!.
  - by destruct s.
  - simpl. by intros [].
  - simpl. unfold Ascii.compare.
    destruct (N.compare_spec (N_of_ascii a) (N_of_ascii b)) as [Heq|Hlt|Hgt].
    + assert (a = b) as ->.
      { by rewrite <-(ascii_N_embedding a), Heq, ascii_N_embedding. }
      split; [by right|]. intros [?|[_ ?]]; [lia|done].
    + split; [by left|done].
    + split; [done|]. intros [?|[-> _]]; lia.
Qed.

Lemma sort_sorted (l : list string) : Sorted str_le (sort l).
Proof. apply Sorted_merge_sort, _. Qed.

Lemma sort_perm (l : list string) : sort l ≡ₚ l.
Proof. apply merge_sort_Permutation. Qed.

(** Sorting forgets the order it was given. *)
Lemma sort_unique (l l' : list string) : l ≡ₚ l' → sort l = sort l'.
Proof.
  intros Hl. apply (Sorted_unique str_le); auto using sort_sorted.
  by rewrite !sort_perm.
Qed.

(** ** Objects *)

Lemma obj_get_absent (k : string) (o : obj) :
  k ∉ keys o → obj_get k o = VUndefined.
Proof.
  induction o as [|[k' v] o IH]; simpl; [done|].
  rewrite not_elem_of_cons. intros [Hne Hk].
  destruct (String.eqb_spec k k'); [done|by apply IH].
Qed.

Lemma obj_get_present (k : string) (v : value) (o : obj) :
  wf_obj o → (k, v) ∈ o → obj_get k o = v.
Proof.
  unfold wf_obj, keys. induction o as [|[k' v'] o IH]; simpl.
  { by intros _ ?%elem_of_nil. }
  rewrite NoDup_cons, elem_of_cons. intros [Hk' Hnd] [Heq|Hin].
  - simplify_eq. by rewrite String.eqb_refl.
  - destruct (String.eqb_spec k k') as [->|_]; [|by apply IH].
    destruct Hk'. apply list_elem_of_fmap. by exists (k', v).
Qed.

(** Well-formedness of a literal, by running the decision procedure. *)
Ltac wf_by_compute :=
  unfold wf_obj; apply (bool_decide_unpack _); vm_compute; exact I.

(** A lookup does not see the order the keys were inserted in. *)
Lemma obj_get_perm (k : string) (o o' : obj) :
  wf_obj o → o ≡ₚ o' → obj_get k o = obj_get k o'.
Proof.
  intros Hwf Hp.
  assert (wf_obj o') as Hwf' by (unfold wf_obj, keys in *; by rewrite <-Hp).
  destruct (decide (k ∈ keys o)) as [Hk|Hk].
  - apply list_elem_of_fmap in Hk as ([k0 v] & -> & Hin). simpl.
    rewrite (obj_get_present _ v o), (obj_get_present _ v o'); try done.
    by rewrite <-Hp.
  - rewrite !obj_get_absent; try done. unfold keys in *. by rewrite <-Hp.
Qed.

Lemma obj_get_set (k k' : string) (v : value) (o : obj) :
  obj_get k (obj_set k' v o) = if String.eqb k k' then v else obj_get k o.
Proof.
  induction o as [|[k0 v0] o IH]; simpl.
  { by destruct (String.eqb_spec k k'). }
  destruct (String.eqb_spec k' k0) as [->|Hne]; simpl.
  - by destruct (String.eqb_spec k k0).
  - rewrite IH. destruct (String.eqb_spec k k0), (String.eqb_spec k k'); congruence.
Qed.

Lemma keys_set (k : string) (v : value) (o : obj) :
  keys (obj_set k v o) = if bool_decide (k ∈ keys o) then keys o else keys o ++ [k].
Proof.
  unfold keys. induction o as [|[k0 v0] o IH]; csimpl; [done|].
  destruct (String.eqb_spec k k0) as [->|Hne]; csimpl.
  - rewrite bool_decide_eq_true_2; [done|by left].
  - rewrite IH. case_bool_decide as H1; case_bool_decide as H2; try done.
    + destruct H2. by right.
    + apply elem_of_cons in H2 as [?|?]; done.
Qed.

Lemma wf_obj_set (k : string) (v : value) (o : obj) :
  wf_obj o → wf_obj (obj_set k v o).
Proof.
  unfold wf_obj. rewrite keys_set. case_bool_decide as Hk; [done|].
  intros Hnd. apply NoDup_app. split_and!; [done| |apply NoDup_singleton].
  intros x Hx ->%list_elem_of_singleton. done.
Qed.

Lemma obj_get_delete (k k' : string) (o : obj) :
  obj_get k (obj_delete k' o) = if String.eqb k k' then VUndefined else obj_get k o.
Proof.
  unfold obj_delete. induction o as [|[k0 v0] o IH].
  { simpl. by destruct (String.eqb k k'). }
  rewrite filter_cons. cbn [fst]. case_decide as Hd; cbn [obj_get].
  - rewrite IH. destruct (String.eqb_spec k k0), (String.eqb_spec k k'); congruence.
  - rewrite IH. subst k0.
    by destruct (String.eqb_spec k k').
Qed.

Lemma keys_delete (k : string) (o : obj) :
  keys (obj_delete k o) = filter (λ k', k' ≠ k) (keys o).
Proof.
  unfold keys, obj_delete. induction o as [|[k0 v0] o IH]; [done|].
  rewrite fmap_cons, !filter_cons. cbn [fst]. case_decide; csimpl; by rewrite IH.
Qed.

Lemma wf_obj_delete (k : string) (o : obj) : wf_obj o → wf_obj (obj_delete k o).
Proof. unfold wf_obj. rewrite keys_delete. apply NoDup_filter. Qed.

(** Deleting a key undoes assigning it. *)
Lemma obj_delete_set (k : string) (v : value) (o : obj) :
  obj_delete k (obj_set k v o) = obj_delete k o.
Proof.
  unfold obj_delete. induction o as [|[k0 v0] o IH]; cbn [obj_set].
  { rewrite filter_cons. cbn [fst]. by case_decide. }
  destruct (String.eqb_spec k k0) as [->|Hne].
  - rewrite !filter_cons. cbn [fst]. by case_decide.
  - rewrite !filter_cons. cbn [fst]. by rewrite IH.
Qed.

Lemma obj_delete_idemp (k : string) (o : obj) :
  obj_delete k (obj_delete k o) = obj_delete k o.
Proof.
  unfold obj_delete. induction o as [|[k0 v0] o IH]; [done|].
  rewrite filter_cons. cbn [fst]. case_decide; [|done].
  rewrite filter_cons. cbn [fst]. case_decide; [|done]. by rewrite IH.
Qed.

Lemma obj_get_extend (k : string) (dst src : obj) :
  obj_get k (_extend dst src) =
    if bool_decide (k ∈ keys src) then obj_get k (_extend [] src) else obj_get k dst.
Proof.
  unfold _extend. revert dst.
  induction src as [|[k0 v0] src IH] using rev_ind; intros dst; simpl; [done|].
  rewrite !fold_left_app. simpl. rewrite !obj_get_set.
  unfold keys. rewrite fmap_app. simpl.
  destruct (String.eqb_spec k k0) as [->|Hne].
  - rewrite bool_decide_eq_true_2; [done|]. apply elem_of_app. right. by left.
  - rewrite IH. unfold keys.
    rewrite (bool_decide_ext (k ∈ src.*1 ++ [k0]) (k ∈ src.*1)); [done|].
    rewrite elem_of_app, list_elem_of_singleton.
    split; [intros [?|?]; done|by left].
Qed.

(** On a well-formed source, extending the empty object copies it. *)
Lemma obj_get_extend_nil (k : string) (src : obj) :
  wf_obj src → obj_get k (_extend [] src) = obj_get k src.
Proof.
  unfold _extend, wf_obj, keys.
  induction src as [|[k0 v0] src IH] using rev_ind; [done|].
  rewrite fmap_app, fold_left_app. simpl. intros Hnd.
  apply NoDup_app in Hnd as (Hnd & Hdisj & _).
  rewrite obj_get_set.
  destruct (String.eqb_spec k k0) as [->|Hne].
  - symmetry. apply obj_get_present.
    + unfold wf_obj, keys. rewrite fmap_app. simpl.
      apply NoDup_app. split_and!; [done| |apply NoDup_singleton].
      intros x Hx ->%list_elem_of_singleton. by eapply Hdisj; [|left].
    + apply elem_of_app. right. by left.
  - rewrite IH; [|done]. clear IH Hdisj Hnd.
    induction src as [|[k1 v1] src IH]; simpl.
    + by destruct (String.eqb_spec k k0).
    + destruct (String.eqb_spec k k1); [done|apply IH].
Qed.

(** Caller values win: a key of the source reads as in the source. *)
Lemma obj_get_extend_wf (k : string) (dst src : obj) :
  wf_obj src →
  obj_get k (_extend dst src) =
    if bool_decide (k ∈ keys src) then obj_get k src else obj_get k dst.
Proof. intros Hwf. by rewrite obj_get_extend, obj_get_extend_nil. Qed.

(** ** The canonical query encoder *)

Lemma toQueryString_unfold (o : obj) :
  _toQueryString o =
    join "&" (map (λ k, k +:+ "=" +:+ ToString (obj_get k o))
                (sort (filter (kept o) (keys o)))).
Proof. reflexivity. Qed.

(** Two objects that read the same on every key, and have the same keys up
    to order, encode to the same string. *)
Lemma toQueryString_ext (o o' : obj) :
  keys o ≡ₚ keys o' → (∀ k, obj_get k o = obj_get k o') →
  _toQueryString o = _toQueryString o'.
Proof.
  intros Hk Hget. rewrite !toQueryString_unfold.
  assert (filter (kept o) (keys o) ≡ₚ filter (kept o') (keys o')) as Hf.
  { rewrite Hk. erewrite list_filter_iff; [done|].
    intros k. unfold kept. by rewrite Hget. }
  rewrite (sort_unique _ _ Hf). f_equal.
  apply map_ext. intros k. by rewrite Hget.
Qed.

Lemma toQueryString_perm (o o' : obj) :
  wf_obj o → o ≡ₚ o' → _toQueryString o = _toQueryString o'.
Proof.
  intros Hwf Hp. apply toQueryString_ext.
  - unfold keys. by rewrite Hp.
  - intros k. by apply obj_get_perm.
Qed.

(** C3, as the code has it: the encoder joins [k=v] over the keys in
    ascending order of their character codes, each key once; a key is left
    out exactly when its value is undefined or the empty string (a null
    value stays and reads [null]); every value that stays is printed as its
    string form; and the string does not depend on the order the keys were
    inserted in. *)
Theorem toQueryString_canonical (o : obj) :
  wf_obj o →
  ∃ ks : list string,
    _toQueryString o =
      join "&" (map (λ k, k +:+ "=" +:+ ToString (obj_get k o)) ks)
    ∧ Sorted str_le ks
    ∧ NoDup ks
    ∧ (∀ k, k ∈ ks ↔
            k ∈ keys o ∧ obj_get k o ≠ VUndefined ∧ obj_get k o ≠ VStr "")
    ∧ (∀ o', o ≡ₚ o' → _toQueryString o' = _toQueryString o).
Proof.
  intros Hwf. exists (sort (filter (kept o) (keys o))).
  split_and!.
  - apply toQueryString_unfold.
  - apply sort_sorted.
  - rewrite sort_perm. by apply NoDup_filter.
  - intros k. rewrite sort_perm, list_elem_of_filter. unfold kept. tauto.
  - intros o' Hp. symmetry. by apply toQueryString_perm.
Qed.

Lemma toQueryString_canonical_witness :
  wf_obj [("b", VNum 2); ("a", VNum 1)] ∧
  ∃ ks : list string,
    _toQueryString [("b", VNum 2); ("a", VNum 1)] =
      join "&" (map (λ k, k +:+ "=" +:+
                      ToString (obj_get k [("b", VNum 2); ("a", VNum 1)])) ks)
    ∧ Sorted str_le ks
    ∧ NoDup ks
    ∧ (∀ k, k ∈ ks ↔
            k ∈ keys [("b", VNum 2); ("a", VNum 1)]
            ∧ obj_get k [("b", VNum 2); ("a", VNum 1)] ≠ VUndefined
            ∧ obj_get k [("b", VNum 2); ("a", VNum 1)] ≠ VStr "")
    ∧ (∀ o', [("b", VNum 2); ("a", VNum 1)] ≡ₚ o' →
             _toQueryString o' = _toQueryString [("b", VNum 2); ("a", VNum 1)]).
Proof.
  split.
  - wf_by_compute.
  - apply (toQueryString_canonical [("b", VNum 2); ("a", VNum 1)]).
    wf_by_compute.
Defined.

(** The example of the specification: [{b:2,a:1}] and [{a:1,b:2}]. *)
Example toQueryString_order_example :
  _toQueryString [("b", VNum 2); ("a", VNum 1)] = "a=1&b=2"
  ∧ _toQueryString [("a", VNum 1); ("b", VNum 2)] = "a=1&b=2".
Proof. split; vm_compute; reflexivity. Qed.

(** C3, as stated, fails on a null value: the key is not omitted, and the
    string is not the one of the mapping without that key. *)
Lemma toQueryString_keeps_null :
  _toQueryString [("a", VNull); ("b", VNum 1); ("c", VStr ""); ("d", VUndefined)]
    = "a=null&b=1"
  ∧ _toQueryString [("a", VNull); ("b", VNum 1); ("c", VStr ""); ("d", VUndefined)]
    ≠ _toQueryString [("b", VNum 1)].
Proof. split; vm_compute; [reflexivity|discriminate]. Qed.

(** Encoding depends on an object through its keys, on which of them are
    kept, and on how the values print. *)
Lemma toQueryString_ext_gen (o o' : obj) :
  keys o ≡ₚ keys o' →
  (∀ k, kept o k ↔ kept o' k) →
  (∀ k, ToString (obj_get k o) = ToString (obj_get k o')) →
  _toQueryString o = _toQueryString o'.
Proof.
  intros Hk Hkept Hstr. rewrite !toQueryString_unfold.
  assert (filter (kept o) (keys o) ≡ₚ filter (kept o') (keys o')) as Hf.
  { rewrite Hk. by erewrite list_filter_iff. }
  rewrite (sort_unique _ _ Hf). f_equal.
  apply map_ext. intros k. by rewrite Hstr.
Qed.

(** ** String coercion *)

Lemma Z_toString_nonempty (n : Z) : Z_toString n ≠ "".
Proof.
  unfold Z_toString. destruct (Z.to_int n) as [d|d]; simpl; [|done].
  by destruct d.
Qed.

Lemma keys_stringify (o : obj) : keys (stringify o) = keys o.
Proof.
  unfold keys, stringify. induction o as [|[k v] o IH]; [done|].
  cbn [map]. rewrite fmap_cons, IH. by destruct v.
Qed.

Lemma obj_get_stringify (k : string) (o : obj) :
  obj_get k (stringify o) = stringify_value (obj_get k o).
Proof.
  unfold stringify. induction o as [|[k' v] o IH]; [done|].
  cbn [map obj_get].
  destruct v; cbn [fst snd obj_get]; by destruct (String.eqb k k').
Qed.

Lemma obj_delete_stringify (k : string) (o : obj) :
  obj_delete k (stringify o) = stringify (obj_delete k o).
Proof.
  unfold obj_delete, stringify. induction o as [|[k' v] o IH]; [done|].
  cbn [map]. rewrite !filter_cons.
  destruct v; cbn [fst snd]; case_decide; cbn [map]; by rewrite IH.
Qed.

Lemma kept_stringify_value (v : value) :
  stringify_value v ≠ VUndefined ∧ stringify_value v ≠ VStr ""
  ↔ v ≠ VUndefined ∧ v ≠ VStr "".
Proof.
  destruct v as [| |[]|n|s]; simpl; split; intros [H1 H2]; split;
    try done; try congruence.
  intros [= Hn]. by apply Z_toString_nonempty in Hn.
Qed.

Lemma ToString_stringify_value (v : value) :
  ToString (stringify_value v) = ToString v.
Proof. by destruct v. Qed.

(** Coercing the values to strings does not change the canonical string. *)
Lemma toQueryString_stringify (o : obj) :
  _toQueryString (stringify o) = _toQueryString o.
Proof.
  apply toQueryString_ext_gen.
  - by rewrite keys_stringify.
  - intros k. unfold kept. rewrite obj_get_stringify. apply kept_stringify_value.
  - intros k. rewrite obj_get_stringify. apply ToString_stringify_value.
Qed.

(** ** The signature engine *)

Section Sign.
Context (E : Env) (self : client).

(** The signature is a function of the string that is digested. *)
Lemma getSign_cong (pkg pkg' : obj) (signType : value) (w : world) :
  sign_input self pkg = sign_input self pkg' →
  _getSign E self pkg signType w = _getSign E self pkg' signType w.
Proof. unfold sign_input, _getSign, _clone. by intros ->. Qed.

Lemma getSign_run (pkg : obj) (alg : option algorithm) (w : world) :
  _getSign E self pkg (signType_of alg) w =
    (Ok (toUpperCase (digest E (default MD5 alg) (sign_input self pkg))),
     World (draws w)
       (calls w ++ [CallDigest (algorithm_name (default MD5 alg)) (sign_input self pkg)])).
Proof. by destruct alg as [[]|]. Qed.

(** C1: for every field mapping and secret, [_getSign] returns the
    upper-cased digest of the canonical string of the mapping without its
    [sign] key, followed by [&key=] and the secret; the digest is MD5 when
    no algorithm is selected and SHA1 when that is selected.  It calls
    the digest once and nothing else. *)
Theorem getSign_spec (pkg : obj) (secret : string) (alg : option algorithm)
    (w : world) :
  partnerKey self = VStr secret →
  _getSign E self pkg (signType_of alg) w =
    (Ok (spec_signature E pkg secret alg),
     World (draws w)
       (calls w ++
          [CallDigest (algorithm_name (default MD5 alg))
             (_toQueryString (obj_delete "sign" pkg) +:+ "&key=" +:+ secret)])).
Proof.
  intros Hkey. rewrite getSign_run. unfold spec_signature, sign_input.
  by rewrite Hkey.
Qed.

(** C4: two mappings with the same keys and the same values, in whatever
    order they were inserted, get the same signature; and assigning or
    deleting a [sign] key leaves the signature as it was. *)
Theorem getSign_invariant (o o' : obj) (v signType : value) (w : world) :
  wf_obj o → o ≡ₚ o' →
  _getSign E self o' signType w = _getSign E self o signType w
  ∧ _getSign E self (obj_set "sign" v o) signType w = _getSign E self o signType w
  ∧ _getSign E self (obj_delete "sign" o) signType w = _getSign E self o signType w.
Proof.
  intros Hwf Hp. split_and!; apply getSign_cong; unfold sign_input; f_equal.
  - symmetry. apply toQueryString_perm; [by apply wf_obj_delete|].
    unfold obj_delete. by rewrite Hp.
  - by rewrite obj_delete_set.
  - by rewrite obj_delete_idemp.
Qed.

(** C8: the signature of a mapping is the signature of the same mapping
    with every value that is neither null nor undefined replaced by its
    string form. *)
Theorem getSign_stringify (params : obj) (signType : value) (w : world) :
  _getSign E self (stringify params) signType w = _getSign E self params signType w.
Proof.
  apply getSign_cong. unfold sign_input.
  by rewrite obj_delete_stringify, toQueryString_stringify.
Qed.
End Sign.

Lemma getSign_spec_witness :
  partnerKey Mock.account = VStr "K"
  ∧ _getSign Mock.paid Mock.account [("b", VNum 2); ("sign", VStr "old"); ("a", VStr "x")]
      (signType_of (Some SHA1)) world0 =
      (Ok "SHA1(A=X&B=2&KEY=K)", World 0 [CallDigest "SHA1" "a=x&b=2&key=K"]).
Proof.
  split; [reflexivity|].
  exact (getSign_spec Mock.paid Mock.account
           [("b", VNum 2); ("sign", VStr "old"); ("a", VStr "x")] "K" (Some SHA1)
           world0 eq_refl).
Defined.

Lemma getSign_invariant_witness :
  wf_obj [("b", VNum 2); ("a", VNum 1)]
  ∧ [("b", VNum 2); ("a", VNum 1)] ≡ₚ [("a", VNum 1); ("b", VNum 2)]
  ∧ _getSign Mock.paid Mock.account [("a", VNum 1); ("b", VNum 2)] VUndefined world0
    = _getSign Mock.paid Mock.account [("b", VNum 2); ("a", VNum 1)] VUndefined world0.
Proof.
  assert (wf_obj [("b", VNum 2); ("a", VNum 1)]) as Hwf by wf_by_compute.
  assert ([("b", VNum 2); ("a", VNum 1)] ≡ₚ [("a", VNum 1); ("b", VNum 2)]) as Hp
    by apply perm_swap.
  split_and!; [done..|].
  exact (proj1 (getSign_invariant Mock.paid Mock.account _ _ VNull VUndefined
                  world0 Hwf Hp)).
Defined.

(** ** Running the computations *)

Ltac run := unfold mbind, M_bind, mret, M_ret, throw, record, draw; cbn [draws calls].

Lemma nonce_loop_run (E : Env) (n : nat) (acc : string) (w : world) :
  nonce_loop E n acc w =
    (Ok (nonce_text E n acc (draws w)), World (n + draws w) (calls w)).
Proof.
  revert acc w. induction n as [|n IH]; intros acc w.
  { by destruct w. }
  cbn [nonce_loop nonce_text]. run. rewrite IH. cbn [draws calls].
  by rewrite Nat.add_succ_r.
Qed.

(** A nonce is always produced, at the cost of 32 draws and of no call. *)
Lemma generateNonceStr_run (E : Env) (w : world) :
  _generateNonceStr E None w =
    (Ok (nonce_at E (draws w)), World (32 + draws w) (calls w)).
Proof. apply nonce_loop_run. Qed.

(** ** The default parameter expander *)

Section Expand.
Context (E : Env) (self : client).

(** The table of defaults reads as the account's defaults. *)
Lemma obj_get_defaults (nonce k : string) :
  obj_get k (defaults self nonce) = account_default self nonce k.
Proof.
  unfold defaults, account_default, subMchId. cbn.
  repeat match goal with
         | |- context [String.eqb k ?s] =>
             destruct (String.eqb_spec k s) as [->|?]; [reflexivity|]
         end.
  reflexivity.
Qed.

Lemma extendObject_fold (d : obj) (wl : list string) (acc : obj) (k : string) :
  obj_get k
    (fold_left (λ acc k,
         if truthy (obj_get k d) then obj_set k (obj_get k d) acc else acc) wl acc)
  = if bool_decide (k ∈ wl) && truthy (obj_get k d) then obj_get k d
    else obj_get k acc.
Proof.
  revert acc. induction wl as [|k0 wl IH]; intros acc; [done|].
  cbn [fold_left]. rewrite IH.
  destruct (decide (k = k0)) as [->|Hne].
  - rewrite (bool_decide_eq_true_2 (k0 ∈ k0 :: wl)); [|by left].
    destruct (truthy (obj_get k0 d)) eqn:Ht.
    + rewrite obj_get_set, String.eqb_refl. by rewrite andb_true_r, Tauto.if_same.
    + by rewrite andb_false_r.
  - rewrite (bool_decide_ext (k ∈ k0 :: wl) (k ∈ wl)).
    2:{ rewrite elem_of_cons. split; [intros [?|?]; done|by right]. }
    destruct (truthy (obj_get k0 d)); [|done].
    rewrite obj_get_set. by destruct (String.eqb_spec k k0).
Qed.

Lemma obj_get_extendObject (d : obj) (wl : list string) (k : string) :
  obj_get k (extendObject d wl)
  = if bool_decide (k ∈ wl) && truthy (obj_get k d) then obj_get k d else VUndefined.
Proof. unfold extendObject. by rewrite extendObject_fold. Qed.

Lemma keys_extendObject_fold (d : obj) (wl : list string) (acc : obj) (k : string) :
  k ∈ keys (fold_left (λ acc k,
         if truthy (obj_get k d) then obj_set k (obj_get k d) acc else acc) wl acc)
  ↔ k ∈ keys acc ∨ (k ∈ wl ∧ truthy (obj_get k d) = true).
Proof.
  revert acc. induction wl as [|k0 wl IH]; intros acc; cbn [fold_left].
  { rewrite elem_of_nil. tauto. }
  rewrite IH, elem_of_cons. destruct (truthy (obj_get k0 d)) eqn:Ht.
  - rewrite keys_set. case_bool_decide as Hin.
    + split; [tauto|]. intros [?|[[Hk|?] ?]]; subst; auto.
    + rewrite elem_of_app, list_elem_of_singleton.
      split; [intros [[?|Hk]|?]; subst; auto; tauto|].
      intros [?|[[Hk|?] ?]]; subst; auto.
  - split; [tauto|]. intros [?|[[Hk|?] ?]]; subst; auto. congruence.
Qed.

Lemma keys_extendObject (d : obj) (wl : list string) (k : string) :
  k ∈ keys (extendObject d wl) ↔ k ∈ wl ∧ truthy (obj_get k d) = true.
Proof.
  unfold extendObject. rewrite keys_extendObject_fold.
  cbn. rewrite elem_of_nil. tauto.
Qed.

Lemma extendWithDefault_run (o : obj) (wl : list string) (w : world) :
  _extendWithDefault E self o wl w =
    (Ok (_extend (extendObject (defaults self (nonce_at E (draws w))) wl) o),
     World (32 + draws w) (calls w)).
Proof. unfold _extendWithDefault. run. by rewrite generateNonceStr_run. Qed.

(** C9: default expansion always returns; what it returns is the caller's
    mapping laid over a fresh object that holds exactly the whitelisted keys
    whose account default is truthy, each with that default (the nonce being
    the one drawn in this call); a key the caller supplied reads as the
    caller supplied it, any other key reads as in the fresh object. *)
Theorem extendWithDefault_spec (o : obj) (wl : list string) (w : world) :
  wf_obj o →
  ∃ fresh : obj,
    _extendWithDefault E self o wl w =
      (Ok (_extend fresh o), World (32 + draws w) (calls w))
    ∧ (∀ k, k ∈ keys fresh ↔
            k ∈ wl ∧ truthy (account_default self (nonce_at E (draws w)) k) = true)
    ∧ (∀ k, k ∈ keys fresh →
            obj_get k fresh = account_default self (nonce_at E (draws w)) k)
    ∧ (∀ k, k ∈ keys o → obj_get k (_extend fresh o) = obj_get k o)
    ∧ (∀ k, k ∉ keys o → obj_get k (_extend fresh o) = obj_get k fresh).
Proof.
  intros Hwf.
  exists (extendObject (defaults self (nonce_at E (draws w))) wl). split_and!.
  - apply extendWithDefault_run.
  - intros k. by rewrite keys_extendObject, obj_get_defaults.
  - intros k [Hk Ht]%keys_extendObject.
    rewrite obj_get_extendObject, bool_decide_eq_true_2, Ht by done.
    apply obj_get_defaults.
  - intros k Hk. by rewrite obj_get_extend_wf, bool_decide_eq_true_2.
  - intros k Hk. by rewrite obj_get_extend_wf, bool_decide_eq_false_2.
Qed.
End Expand.

Lemma extendWithDefault_spec_witness :
  wf_obj [("mch_id", VStr "X")]
  ∧ ∃ result w',
      _extendWithDefault Mock.paid Mock.account [("mch_id", VStr "X")] ["mch_id"] world0
        = (Ok result, w')
      ∧ obj_get "mch_id" result = VStr "X".
Proof.
  assert (wf_obj [("mch_id", VStr "X")]) as Hwf by wf_by_compute.
  split; [done|].
  destruct (extendWithDefault_spec Mock.paid Mock.account
              [("mch_id", VStr "X")] ["mch_id"] world0 Hwf)
    as (fresh & Hrun & _ & _ & Hcaller & _).
  eexists _, _. split; [exact Hrun|].
  rewrite Hcaller; [reflexivity|]. by left.
Defined.

(** The example of the specification: the account's merchant id is [Y], the
    caller's is [X]. *)
Example extendWithDefault_example :
  mchId Mock.account = VStr "Y"
  ∧ _extendWithDefault Mock.paid Mock.account [("mch_id", VStr "X")] ["mch_id"] world0
    = (Ok [("mch_id", VStr "X")], World 32 [])
  ∧ _extendWithDefault Mock.paid Mock.account [] ["mch_id"] world0
    = (Ok [("mch_id", VStr "Y")], World 32 []).
Proof. split_and!; vm_compute; reflexivity. Qed.

(** ** The transaction facade *)

Lemma wf_extend (dst src : obj) : wf_obj dst → wf_obj (_extend dst src).
Proof.
  unfold _extend. revert dst.
  induction src as [|[k v] src IH]; intros dst Hwf; [done|].
  cbn [fold_left]. apply IH. by apply wf_obj_set.
Qed.

Lemma wf_extendObject (d : obj) (wl : list string) : wf_obj (extendObject d wl).
Proof.
  unfold extendObject. assert (wf_obj []) as Hnil by apply NoDup_nil_2.
  revert Hnil. generalize (@nil (string * value)).
  induction wl as [|k wl IH]; intros acc Hwf; [done|].
  cbn [fold_left]. apply IH. destruct (truthy _); [by apply wf_obj_set|done].
Qed.

Lemma wf_signed_params (self : client) (nonce : string) (url : value) (params : obj) :
  wf_obj (signed_params self nonce url params).
Proof. apply wf_extend, wf_extendObject. Qed.

Section Facade.
Context (E : Env) (self : client).

Lemma validate_run (body : string) (w : world) :
  validate E body w =
    (validate_callback body (parseString E body),
     World (draws w) (calls w ++ [CallParseXml body])).
Proof. reflexivity. Qed.

(** What [_signedQuery] does, step by step: a nonce is drawn, the digest is
    called on the canonical string of the mapping with [service] and the
    defaults, and the mapping with the signature and every value coerced is
    validated; when a group is missing that is all, otherwise the mapping is
    encoded, sent, and the answer decoded. *)
Lemma signedQuery_run (url : value) (params : obj) (opts : options) (w : world) :
  _signedQuery E self url params opts w =
    pipeline_outcome E self (opt_https opts) (opt_required opts)
      (signed_params self (nonce_at E (draws w)) url params) 32 w.
Proof.
  unfold pipeline_outcome. cbn zeta.
  unfold _signedQuery. unfold mbind at 1. unfold M_bind at 1.
  rewrite extendWithDefault_run.
  fold (signed_params self (nonce_at E (draws w)) url params).
  set (q := signed_params self (nonce_at E (draws w)) url params).
  unfold mbind at 1. unfold M_bind at 1.
  change VUndefined with (signType_of None). rewrite getSign_run.
  cbn [default digest algorithm_name draws calls].
  fold (sent_params E self q). set (p := sent_params E self q).
  case_bool_decide as Hmiss; cbn [negb]; [|reflexivity].
  unfold transport_answer, transport_call.
  destruct (opt_https opts); unfold buildXml, _httpsRequest, _httpRequest, lift; run;
    (destruct (buildObject E p) as [xml|e]; [|reflexivity]);
    match goal with |- context [match ?a with Ok _ => _ | Throw _ => _ end] =>
      destruct a as [[err|body]|e] end;
    rewrite ?validate_run; cbn [draws calls]; by rewrite <-?app_assoc.
Qed.

(** Every operation is [_signedQuery] on its own mapping, service, transport
    and required groups; [refund] draws a nonce of its own first. *)
Lemma operation_run (op : operation) (params : obj) (w : world) :
  run_operation E self op params w =
    pipeline_outcome E self (op_https op) (required_of op)
      (op_signed E self op params (draws w)) (op_draws op) w.
Proof.
  unfold op_signed.
  destruct op;
    cbn [run_operation op_https required_of service_of op_params op_draws
         Nat.sub Nat.add].
  - unfold unifiedOrder. rewrite obj_get_set. cbn [String.eqb Ascii.eqb Bool.eqb].
    by rewrite signedQuery_run.
  - unfold orderQuery. by rewrite signedQuery_run.
  - unfold refund. unfold mbind, M_bind. rewrite extendWithDefault_run.
    rewrite signedQuery_run. unfold pipeline_outcome.
    cbn [draws calls opt_https opt_required]. by rewrite !Nat.add_assoc.
  - unfold refundQuery. by rewrite signedQuery_run.
  - unfold closeOrder. by rewrite signedQuery_run.
Qed.
End Facade.

(** *** How the mapping that is validated and sent reads *)

Lemma elem_of_keys_set (k k' : string) (v : value) (o : obj) :
  k ∈ keys (obj_set k' v o) ↔ k = k' ∨ k ∈ keys o.
Proof.
  rewrite keys_set. case_bool_decide as Hin.
  - split; [by right|]. by intros [->|?].
  - rewrite elem_of_app, list_elem_of_singleton. tauto.
Qed.

Lemma elem_of_keys_extend (k : string) (dst src : obj) :
  k ∈ keys (_extend dst src) ↔ k ∈ keys dst ∨ k ∈ keys src.
Proof.
  unfold _extend. revert dst.
  induction src as [|[k' v] src IH]; intros dst; cbn [fold_left].
  { cbn. rewrite elem_of_nil. tauto. }
  rewrite IH, elem_of_keys_set. unfold keys. rewrite fmap_cons, elem_of_cons.
  cbn [fst]. tauto.
Qed.

Lemma obj_get_present_key (k : string) (o : obj) :
  obj_get k o ≠ VUndefined → k ∈ keys o.
Proof.
  intros Hget. destruct (decide (k ∈ keys o)) as [|Hk]; [done|].
  by apply obj_get_absent in Hk.
Qed.

Lemma truthy_stringify_value (v : value) : truthy (stringify_value v) = present v.
Proof.
  destruct v as [| |[]|n|s]; try reflexivity. simpl.
  destruct (String.eqb_spec (Z_toString n) ""); [|done].
  by destruct (Z_toString_nonempty n).
Qed.

Lemma truthy_present (v : value) : truthy v = true → present v = true.
Proof. by destruct v as [| |[]|n|s]. Qed.

Lemma stringify_value_truthy (v : value) :
  truthy v = true → stringify_value v = VStr (ToString v).
Proof. by destruct v as [| |[]|n|s]. Qed.

Section Sent.
Context (E : Env) (self : client).

Lemma obj_get_encode_long_url (k : string) (o : obj) :
  k ≠ "long_url" → obj_get k (encode_long_url E o) = obj_get k o.
Proof.
  intros Hk. unfold encode_long_url. destruct (truthy _); [|done].
  rewrite obj_get_set. by destruct (String.eqb_spec k "long_url").
Qed.

(** The mapping that is signed: [service] is the operation's, a key of the
    caller reads as the caller gave it, and any other key reads as the
    default laid under it. *)
Lemma obj_get_signed_params (nonce : string) (url : value) (params : obj) (k : string) :
  wf_obj params →
  obj_get k (signed_params self nonce url params) =
    if String.eqb k "service" then url
    else if bool_decide (k ∈ keys params) then obj_get k params
    else obj_get k (extendObject (defaults self nonce) ["mch_id"; "nonce_str"; "sub_appid"]).
Proof.
  intros Hwf. unfold signed_params.
  rewrite obj_get_extend_wf by by apply wf_obj_set.
  rewrite obj_get_set.
  rewrite (bool_decide_ext _ _ (elem_of_keys_set k "service" url params)).
  destruct (String.eqb_spec k "service") as [->|Hne].
  - rewrite bool_decide_eq_true_2; [done|by left].
  - rewrite (bool_decide_ext (k = "service" ∨ k ∈ keys params) (k ∈ keys params));
      [done|tauto].
Qed.

(** The mapping that is validated and sent, on any key but [long_url]: the
    string form of what was signed, with the signature where the signed
    mapping has no [sign] key. *)
Lemma obj_get_sent_params (q : obj) (k : string) :
  wf_obj q → k ≠ "long_url" →
  obj_get k (sent_params E self q) =
    stringify_value
      (if bool_decide (k ∈ keys q) then obj_get k q
       else if String.eqb k "sign"
            then VStr (toUpperCase (md5 E (sign_input self q)))
            else VUndefined).
Proof.
  intros Hwf Hk. unfold sent_params.
  rewrite obj_get_stringify, obj_get_encode_long_url, obj_get_extend_wf by done.
  case_bool_decide; [done|]. cbn. by destruct (String.eqb k "sign").
Qed.

Lemma wf_op_params (op : operation) (nonce0 : string) (params : obj) :
  wf_obj params → wf_obj (op_params self op nonce0 params).
Proof.
  intros Hwf. destruct op; cbn [op_params]; try done.
  - by apply wf_obj_set.
  - apply wf_extend, wf_extendObject.
Qed.

(** What an operation adds to the caller's mapping before [_signedQuery]
    leaves every key of the caller as it is, but for [notify_url]. *)
Lemma obj_get_op_params (op : operation) (nonce0 : string) (params : obj) (k : string) :
  wf_obj params → k ∈ keys params → k ≠ "notify_url" →
  obj_get k (op_params self op nonce0 params) = obj_get k params
  ∧ k ∈ keys (op_params self op nonce0 params).
Proof.
  intros Hwf Hk Hne. destruct op; cbn [op_params]; try done.
  - rewrite obj_get_set, elem_of_keys_set.
    destruct (String.eqb_spec k "notify_url"); [done|auto].
  - rewrite obj_get_extend_wf, bool_decide_eq_true_2, elem_of_keys_extend by done.
    auto.
Qed.

(** A key the caller leaves out, and that no step fills in, is undefined in
    what an operation hands on. *)
Lemma obj_get_op_params_absent (op : operation) (nonce0 : string) (params : obj)
    (k : string) :
  wf_obj params → k ∉ keys params → k ≠ "notify_url" → k ≠ "op_user_id" →
  k ∉ keys (op_params self op nonce0 params).
Proof.
  intros Hwf Hk Hn Hu. destruct op; cbn [op_params]; try done.
  - rewrite elem_of_keys_set. tauto.
  - rewrite elem_of_keys_extend, keys_extendObject.
    rewrite list_elem_of_singleton. tauto.
Qed.

(** On a key that no step fills in or rewrites, the validated mapping is the
    caller's, coerced to strings. *)
Lemma obj_get_validated (op : operation) (nonce0 nonce : string) (params : obj)
    (k : string) :
  wf_obj params →
  k ∉ ["service"; "sign"; "long_url"; "notify_url"; "op_user_id";
       "mch_id"; "nonce_str"; "sub_appid"] →
  obj_get k
    (sent_params E self
       (signed_params self nonce (service_of op params)
          (op_params self op nonce0 params)))
  = stringify_value (obj_get k params).
Proof.
  intros Hwf Hk.
  repeat (apply not_elem_of_cons in Hk as [? Hk]).
  pose proof (wf_op_params op nonce0 params Hwf) as Hwf'.
  rewrite obj_get_sent_params by (done || apply wf_signed_params).
  f_equal.
  assert (obj_get k (signed_params self nonce (service_of op params)
                       (op_params self op nonce0 params)) = obj_get k params) as Hq.
  { rewrite obj_get_signed_params by done.
    destruct (String.eqb_spec k "service"); [done|].
    destruct (decide (k ∈ keys params)) as [Hin|Hin].
    - destruct (obj_get_op_params op nonce0 params k) as [Hg Hin']; [done..|].
      by rewrite bool_decide_eq_true_2.
    - rewrite bool_decide_eq_false_2
        by by apply obj_get_op_params_absent.
      rewrite obj_get_extendObject, (obj_get_absent k params) by done.
      rewrite bool_decide_eq_false_2; [done|].
      rewrite !elem_of_cons, elem_of_nil. tauto. }
  rewrite Hq. case_bool_decide as Hin; [done|].
  apply obj_get_absent in Hin. rewrite <-Hq, Hin.
  by destruct (String.eqb_spec k "sign").
Qed.
End Sent.

(** *** Validation *)



Section Operations.
Context (E : Env) (self : client).

Lemma wf_op_signed (op : operation) (params : obj) (d : nat) :
  wf_obj (op_signed E self op params d).
Proof. apply wf_signed_params. Qed.

Lemma obj_get_service_signed (op : operation) (params : obj) (d : nat) :
  wf_obj params →
  obj_get "service" (op_signed E self op params d) = service_of op params.
Proof.
  intros Hwf. unfold op_signed.
  rewrite obj_get_signed_params; [done|by apply wf_op_params].
Qed.


(** C5, as the code has it: [service] is assigned, the defaults are laid
    under the caller's mapping, the signature is computed (the call to the
    digest comes first in every run) and injected, the values are coerced
    to strings, and only then are the required groups checked.  When a
    group is missing the run ends there with the error.  Otherwise the
    mapping is handed to the XML builder; when the builder throws, the run
    ends with what it throws and nothing is sent; otherwise the document is
    sent over the transport of the operation, and the run ends with what the
    transport throws, with the transport error, or with what decoding the
    answer gives.  Validation comes after the signature and before encoding
    and transport. *)
Theorem operation_pipeline (op : operation) (params : obj) (w : world) :
  wf_obj params →
  let q := op_signed E self op params (draws w) in
  let p := op_sent E self op params (draws w) in
  let missing := missing_groups p (required_of op) in
  let after := World (op_draws op + draws w) in
  let signed := calls w ++ [CallDigest "MD5" (sign_input self q)] in
  let built := signed ++ [CallBuildXml p] in
  let sent xml := built ++ [transport_call E self (op_https op) xml] in
  obj_get "service" q = service_of op params
  ∧ obj_get "service" p = stringify_value (service_of op params)
  ∧ ((missing ≠ []
      ∧ run_operation E self op params w =
          (Ok (Reply (Some (ErrText ("missing params " +:+ join "," missing))) NoData),
           after signed))
     ∨ (missing = []
        ∧ ∃ e, buildObject E p = Throw e
          ∧ run_operation E self op params w = (Throw e, after built))
     ∨ (missing = []
        ∧ ∃ xml e, buildObject E p = Ok xml
          ∧ transport_answer E self (op_https op) xml = Throw e
          ∧ run_operation E self op params w = (Throw e, after (sent xml)))
     ∨ (missing = []
        ∧ ∃ xml err, buildObject E p = Ok xml
          ∧ transport_answer E self (op_https op) xml = Ok (inl err)
          ∧ run_operation E self op params w =
              (Ok (Reply (Some err) NoData), after (sent xml)))
     ∨ (missing = []
        ∧ ∃ xml body, buildObject E p = Ok xml
          ∧ transport_answer E self (op_https op) xml = Ok (inr body)
          ∧ run_operation E self op params w =
              (validate_callback body (parseString E body),
               after (sent xml ++ [CallParseXml body])))).
Proof.
  intros Hwf. cbn zeta.
  pose proof (obj_get_service_signed op params (draws w) Hwf) as Hservice.
  split_and!.
  - done.
  - unfold op_sent. rewrite obj_get_sent_params by (done || apply wf_op_signed).
    rewrite Hservice. case_bool_decide as Hin; [done|].
    apply obj_get_absent in Hin. by rewrite <-Hservice, Hin.
  - rewrite operation_run. unfold pipeline_outcome.
    fold (op_sent E self op params (draws w)).
    case_bool_decide as Hmiss; [right|left; by split].
    destruct (buildObject E _) as [xml|e] eqn:Hbuild.
    2:{ left. split; [done|]. by exists e. }
    right. destruct (transport_answer _ _ _ _) as [[err|body]|e] eqn:Hans.
    + right. left. split; [done|]. by exists xml, err.
    + right. right. split; [done|]. by exists xml, body.
    + left. split; [done|]. by exists xml, e.
Qed.
End Operations.

(** *** The operations on examples *)



Lemma operation_pipeline_witness :
  wf_obj [("out_trade_no", VStr "7")]
  ∧ run_operation Mock.paid Mock.account CloseOrder [("out_trade_no", VStr "7")] world0
    = (Ok (Reply None (Decoded (XObj [("pay_info", XText "{}")]))),
       World 32
         [CallDigest "MD5"
            ("mch_id=Y&nonce_str=ABCDEFGHIJKLMNOPQRSTUVWXYZabcdef&out_trade_no=7"
             +:+ "&service=unified.trade.close&sub_appid=wx1&key=K");
          CallBuildXml
            [("sign",
              VStr ("MD5(MCH_ID=Y&NONCE_STR=ABCDEFGHIJKLMNOPQRSTUVWXYZABCDEF"
                    +:+ "&OUT_TRADE_NO=7&SERVICE=UNIFIED.TRADE.CLOSE&SUB_APPID=WX1&KEY=K)"));
             ("mch_id", VStr "Y");
             ("nonce_str", VStr "ABCDEFGHIJKLMNOPQRSTUVWXYZabcdef");
             ("sub_appid", VStr "wx1"); ("out_trade_no", VStr "7");
             ("service", VStr "unified.trade.close")];
          CallHttp "https://pay.swiftpass.cn/pay/gateway"
            ("<xml><sign>MD5(MCH_ID=Y&NONCE_STR=ABCDEFGHIJKLMNOPQRSTUVWXYZABCDEF"
             +:+ "&OUT_TRADE_NO=7&SERVICE=UNIFIED.TRADE.CLOSE&SUB_APPID=WX1&KEY=K)</sign>"
             +:+ "<mch_id>Y</mch_id><nonce_str>ABCDEFGHIJKLMNOPQRSTUVWXYZabcdef</nonce_str>"
             +:+ "<sub_appid>wx1</sub_appid><out_trade_no>7</out_trade_no>"
             +:+ "<service>unified.trade.close</service></xml>");
          CallParseXml "<xml><pay_info>{}</pay_info></xml>"]).
Proof.
  assert (wf_obj [("out_trade_no", VStr "7")]) as Hwf by wf_by_compute.
  split; [done|].
  destruct (operation_pipeline Mock.paid Mock.account CloseOrder
              [("out_trade_no", VStr "7")] world0 Hwf)
    as (_ & _ & [[Hmiss _]|[(_ & e & Hbuild & _)|[(_ & xml & e & Hbuild & Hans & _)|
                 [(_ & xml & err & Hbuild & Hans & _)
                 |(_ & xml & body & Hbuild & Hans & Hrun)]]]]).
  - exfalso. apply Hmiss. vm_compute. reflexivity.
  - vm_compute in Hbuild. discriminate Hbuild.
  - vm_compute in Hbuild. injection Hbuild as <-.
    vm_compute in Hans. discriminate Hans.
  - vm_compute in Hbuild. injection Hbuild as <-.
    vm_compute in Hans. discriminate Hans.
  - vm_compute in Hbuild. injection Hbuild as <-.
    vm_compute in Hans. injection Hans as <-.
    rewrite Hrun. vm_compute. reflexivity.
Defined.

(** A control character in a value: the groups are there, the builder is
    called and throws, and nothing is sent. *)
Example closeOrder_builder_throws :
  run_operation Mock.paid Mock.account CloseOrder
    [("out_trade_no", VStr (String "7" (String "001" "")))] world0
  = (Throw (ErrObject "Error" "Invalid character in string"),
     World 32
       [CallDigest "MD5"
          ("mch_id=Y&nonce_str=ABCDEFGHIJKLMNOPQRSTUVWXYZabcdef&out_trade_no="
           +:+ String "7" (String "001" "")
           +:+ "&service=unified.trade.close&sub_appid=wx1&key=K");
        CallBuildXml
          [("sign",
            VStr ("MD5(MCH_ID=Y&NONCE_STR=ABCDEFGHIJKLMNOPQRSTUVWXYZABCDEF"
                  +:+ "&OUT_TRADE_NO=" +:+ String "7" (String "001" "")
                  +:+ "&SERVICE=UNIFIED.TRADE.CLOSE&SUB_APPID=WX1&KEY=K)"));
           ("mch_id", VStr "Y");
           ("nonce_str", VStr "ABCDEFGHIJKLMNOPQRSTUVWXYZabcdef");
           ("sub_appid", VStr "wx1");
           ("out_trade_no", VStr (String "7" (String "001" "")));
           ("service", VStr "unified.trade.close")]]).
Proof. vm_compute. reflexivity. Qed.

(** C5, as stated, fails on the place of validation: [closeOrder({})] is
    rejected for its missing group, and the digest has been called on the
    canonical string by then. *)
Lemma signature_precedes_validation :
  run_operation Mock.paid Mock.account CloseOrder [] world0
  = (Ok (Reply (Some (ErrText "missing params out_trade_no")) NoData),
     World 32
       [CallDigest "MD5"
          ("mch_id=Y&nonce_str=ABCDEFGHIJKLMNOPQRSTUVWXYZabcdef"
           +:+ "&service=unified.trade.close&sub_appid=wx1&key=K")]).
Proof. vm_compute. reflexivity. Qed.

(** A refund whose caller passes a [sign] of their own: the digest is
    computed without it, and the body that goes out carries the caller's. *)
Example refund_with_caller_sign :
  calls (run_operation Mock.paid Mock.account Refund
           [("out_trade_no", VStr "7"); ("out_refund_no", VStr "r1");
            ("total_fee", VNum 100); ("refund_fee", VNum 100);
            ("sign", VStr "mine")] world0).2
  = [CallDigest "MD5"
       ("mch_id=Y&nonce_str=ghijklmnopqrstuvwxyz0123456789AB&op_user_id=Y"
        +:+ "&out_refund_no=r1&out_trade_no=7&refund_fee=100"
        +:+ "&service=unified.trade.refund&sub_appid=wx1&total_fee=100&key=K");
     CallBuildXml
       [("sign", VStr "mine"); ("mch_id", VStr "Y");
        ("nonce_str", VStr "ghijklmnopqrstuvwxyz0123456789AB");
        ("sub_appid", VStr "wx1"); ("op_user_id", VStr "Y");
        ("out_trade_no", VStr "7"); ("out_refund_no", VStr "r1");
        ("total_fee", VStr "100"); ("refund_fee", VStr "100");
        ("service", VStr "unified.trade.refund")];
     CallHttps "pay.swiftpass.cn" "/pay/gateway" VUndefined (VStr "Y")
       ("<xml><sign>mine</sign><mch_id>Y</mch_id>"
        +:+ "<nonce_str>ghijklmnopqrstuvwxyz0123456789AB</nonce_str>"
        +:+ "<sub_appid>wx1</sub_appid><op_user_id>Y</op_user_id>"
        +:+ "<out_trade_no>7</out_trade_no><out_refund_no>r1</out_refund_no>"
        +:+ "<total_fee>100</total_fee><refund_fee>100</refund_fee>"
        +:+ "<service>unified.trade.refund</service></xml>");
     CallParseXml "<xml><pay_info>{}</pay_info></xml>"].
Proof. vm_compute. reflexivity. Qed.

(** ** Decoding the answer *)

Section Decode.
Context (E : Env).

(** C6, as the code has it: a body the parser rejects gives the parser's
    error under the name [XMLParseError], with the raw body as data; a body
    that parses to a document with root [xml] whose [pay_info] is absent (or
    empty) gives an error named [missParamError], with the unwrapped
    document as data; and so does an empty body, with an empty object as
    data.  One call is made, to the parser. *)
Theorem validate_spec (body : string) (w : world) :
  (∀ message, parseString E body = ParseFail message →
     validate E body w =
       (Ok (Reply (Some (ErrObject "XMLParseError" message)) (RawBody body)),
        World (draws w) (calls w ++ [CallParseXml body])))
  ∧ (∀ data, parseString E body = ParseRoot "xml" data →
       xml_truthy (xml_prop "pay_info" data) = false →
       validate E body w =
         (Ok (Reply (Some (ErrObject "missParamError" missParamMessage)) (Decoded data)),
          World (draws w) (calls w ++ [CallParseXml body])))
  ∧ (parseString E body = ParseNone →
       validate E body w =
         (Ok (Reply (Some (ErrObject "missParamError" missParamMessage))
                (Decoded (XObj []))),
          World (draws w) (calls w ++ [CallParseXml body]))).
Proof.
  split_and!.
  - intros message Hp. by rewrite validate_run, Hp.
  - intros data Hp Hpay. rewrite validate_run, Hp. cbn. by rewrite Hpay.
  - intros Hp. by rewrite validate_run, Hp.
Qed.

(** With a truthy [pay_info] there is no error. *)
Lemma validate_paid (body : string) (data : xmlvalue) (w : world) :
  parseString E body = ParseRoot "xml" data →
  xml_truthy (xml_prop "pay_info" data) = true →
  validate E body w =
    (Ok (Reply None (Decoded data)), World (draws w) (calls w ++ [CallParseXml body])).
Proof. intros Hp Hpay. rewrite validate_run, Hp. cbn. by rewrite Hpay. Qed.

(** A document with another root has no [xml] to unwrap: reading [pay_info]
    throws, and no callback is made. *)
Lemma validate_foreign_root (body root : string) (data : xmlvalue) (w : world) :
  parseString E body = ParseRoot root data → root ≠ "xml" →
  validate E body w =
    (Throw TypeError, World (draws w) (calls w ++ [CallParseXml body])).
Proof.
  intros Hp Hroot. rewrite validate_run, Hp. cbn.
  by destruct (String.eqb_spec root "xml").
Qed.
End Decode.

Lemma validate_spec_witness :
  parseString Mock.paid "oops" = ParseFail "Non-whitespace before first tag."
  ∧ validate Mock.paid "oops" world0 =
      (Ok (Reply (Some (ErrObject "XMLParseError" "Non-whitespace before first tag."))
             (RawBody "oops")),
       World 0 [CallParseXml "oops"])
  ∧ parseString Mock.paid "<xml><status>0</status></xml>"
    = ParseRoot "xml" (XObj [("status", XText "0")])
  ∧ xml_truthy (xml_prop "pay_info" (XObj [("status", XText "0")])) = false
  ∧ validate Mock.paid "<xml><status>0</status></xml>" world0 =
      (Ok (Reply (Some (ErrObject "missParamError" missParamMessage))
             (Decoded (XObj [("status", XText "0")]))),
       World 0 [CallParseXml "<xml><status>0</status></xml>"]).
Proof.
  split; [reflexivity|].
  split; [exact (proj1 (validate_spec Mock.paid "oops" world0) _ eq_refl)|].
  split; [reflexivity|]. split; [reflexivity|].
  exact (proj1 (proj2 (validate_spec Mock.paid "<xml><status>0</status></xml>" world0))
           _ eq_refl eq_refl).
Defined.

(** C6, as stated, fails on the name of the error, which is
    [missParamError]; and a well-formed document whose root is not [xml]
    gets no error of that kind at all: a TypeError is thrown. *)
Lemma missing_pay_info_is_missParamError :
  (validate Mock.paid "<xml><status>0</status></xml>" world0).1
    = Ok (Reply (Some (ErrObject "missParamError" missParamMessage))
            (Decoded (XObj [("status", XText "0")])))
  ∧ error_name (ErrObject "missParamError" missParamMessage) ≠ Some "MissingParamError"
  ∧ (validate Mock.paid "<root><status>0</status></root>" world0).1 = Throw TypeError.
Proof. split_and!; [reflexivity|discriminate|reflexivity]. Qed.

(** ** The report decoder *)

(** *** Strings as bytes *)

Lemma string_app_cons (a : ascii) (s t : string) :
  String a s +:+ t = String a (s +:+ t).
Proof. reflexivity. Qed.

Lemma string_app_nil_r (s : string) : s +:+ "" = s.
Proof. induction s as [|a s IH]; [done|]. by rewrite string_app_cons, IH. Qed.

Lemma chars_of_app (a b : string) : chars_of (a +:+ b) = chars_of a ++ chars_of b.
Proof.
  induction a as [|x a IH]; [done|].
  change (x :: chars_of (a +:+ b) = x :: (chars_of a ++ chars_of b)).
  by rewrite IH.
Qed.

Lemma length_chars_of (s : string) : length (chars_of s) = String.length s.
Proof. induction s as [|x s IH]; [done|]. cbn. by rewrite IH. Qed.

Lemma string_of_chars_of (s : string) : string_of_chars (chars_of s) = s.
Proof. induction s as [|x s IH]; [done|]. cbn. by rewrite IH. Qed.


(** *** White space, byte by byte *)

Lemma is_space_cases (c : ascii) :
  is_space c = true →
  c = "009"%char ∨ c = "010"%char ∨ c = "011"%char ∨ c = "012"%char
  ∨ c = "013"%char ∨ c = "032"%char.
Proof.
  destruct c as [[] [] [] [] [] [] [] []]; intros H; vm_compute in H;
    try discriminate H; auto 6.
Qed.

Ltac no_space H :=
  cbv [is_space2 is_space3] in H; cbn in H;
  rewrite ?andb_false_r, ?orb_false_r in H; cbn in H;
  rewrite ?andb_false_r, ?orb_false_r in H; discriminate H.

(** No white-space character of several bytes has a byte that is white
    space of the ASCII range, and none of three bytes ends as the one of
    two does. *)
Lemma is_space2_byte (a b : ascii) : is_space2 a b = true → is_space b = false.
Proof.
  destruct (is_space b) eqn:Hb; [|done]. intros H. exfalso.
  apply is_space_cases in Hb as [->|[->|[->|[->|[->| ->]]]]]; no_space H.
Qed.


Lemma is_space3_last (a b c : ascii) :
  is_space3 a b c = true → is_space c = false ∧ is_space2 b c = false.
Proof.
  intros H. split.
  - destruct (is_space c) eqn:Hc; [|done]. exfalso.
    apply is_space_cases in Hc as [->|[->|[->|[->|[->| ->]]]]]; no_space H.
  - unfold is_space2. destruct (Ascii.eqb_spec c "160") as [->|_].
    + exfalso. no_space H.
    + apply andb_false_r.
Qed.

Section Space.
Context (two : ascii → ascii → bool) (three : ascii → ascii → ascii → bool).

Lemma space_at_le (l : list ascii) : (space_at two three l ≤ length l)%nat.
Proof.
  destruct l as [|a [|b [|c t]]]; cbn; repeat case_match; lia.
Qed.

(** A character that is found is found whatever follows. *)
Lemma space_at_app (l r : list ascii) :
  space_at two three l ≠ 0%nat → space_at two three (l ++ r) = space_at two three l.
Proof.
  destruct l as [|a [|b [|c t]]]; cbn; try done.
  - destruct (is_space a); [done|]. done.
  - destruct (is_space a); [done|]. destruct (two a b); done.
Qed.

Lemma space_at_long (l r : list ascii) :
  (3 ≤ length l)%nat → space_at two three (l ++ r) = space_at two three l.
Proof. destruct l as [|a [|b [|c t]]]; cbn; (lia || done). Qed.

Lemma strip_clean (l : list ascii) :
  space_at two three l = 0%nat → strip (space_at two three) 0 l = l.
Proof. destruct l as [|a t]; [done|]. cbn [strip]. by intros ->. Qed.

Lemma strip_skip_all (l : list ascii) : strip (space_at two three) (length l) l = [].
Proof. induction l as [|a t IH]; [done|]. exact IH. Qed.

(** Bytes that are stripped to nothing are stripped off whatever follows. *)
Lemma strip_run (skip : nat) (l r : list ascii) :
  (skip ≤ length l)%nat → strip (space_at two three) skip l = [] →
  strip (space_at two three) skip (l ++ r) = strip (space_at two three) 0 r.
Proof.
  revert skip. induction l as [|a t IH]; intros skip Hskip Hl.
  { destruct skip; [done|cbn in Hskip; lia]. }
  cbn [length] in Hskip. change ((a :: t) ++ r) with (a :: (t ++ r)).
  cbn [strip] in Hl |- *. destruct skip as [|k].
  - change (a :: (t ++ r)) with ((a :: t) ++ r).
    pose proof (space_at_le (a :: t)) as Hle. cbn [length] in Hle.
    destruct (space_at two three (a :: t)) as [|k] eqn:Hs; [done|].
    rewrite space_at_app, Hs by lia. apply IH; [lia|done].
  - apply IH; [lia|done].
Qed.


End Space.


(** A white-space character reads the same from its end. *)
Lemma space_behind_rev (l : list ascii) :
  l ≠ [] → space_ahead l = length l → space_behind (rev l) = length l.
Proof.
  intros Hl. destruct l as [|a [|b [|c [|d t]]]]; [done|..].
  - done.
  - cbn. destruct (is_space a); [done|].
    destruct (is_space2 a b) eqn:H2; [|done].
    by rewrite (is_space2_byte a b).
  - cbn. destruct (is_space a); [done|]. destruct (is_space2 a b); [done|].
    destruct (is_space3 a b c) eqn:H3; [|done].
    destruct (is_space3_last a b c H3) as [-> ->]. done.
  - intros Hs. exfalso. cbn in Hs.
    destruct (is_space a), (is_space2 a b), (is_space3 a b c); lia.
Qed.

(** *** Trimming *)

Lemma trim_start_blank (lead : string) (l : list ascii) :
  blank lead → trim_start (chars_of lead ++ l) = trim_start l.
Proof.
  induction 1 as [|c s Hc Hs IH]; [done|].
  rewrite chars_of_app, <-app_assoc, <-IH. unfold trim_start.
  apply andb_true_iff in Hc as [Hne Hlen]. apply Nat.eqb_eq in Hlen.
  rewrite <-length_chars_of in Hlen. unfold space_ahead in *.
  rewrite (strip_run _ _ 0 (chars_of c)); [done|lia|].
  destruct (chars_of c) as [|a t] eqn:Hchars.
  { by destruct c. }
  cbn [strip]. rewrite Hlen. cbn [length]. apply strip_skip_all.
Qed.

Lemma trim_end_blank (l : list ascii) (trail : string) :
  blank trail → trim_end (l ++ chars_of trail) = trim_end l.
Proof.
  intros Hb. unfold trim_end. f_equal. rewrite rev_app_distr.
  generalize (rev l). clear l.
  induction Hb as [|c s Hc Hs IH]; intros l; [done|].
  rewrite chars_of_app, rev_app_distr, <-app_assoc, IH.
  apply andb_true_iff in Hc as [Hne Hlen]. apply Nat.eqb_eq in Hlen.
  rewrite <-length_chars_of in Hlen.
  assert (chars_of c ≠ []) as Hchars by by destruct c.
  pose proof (space_behind_rev _ Hchars Hlen) as Hrev. unfold space_behind in *.
  rewrite (strip_run _ _ 0 (rev (chars_of c))); [done|lia|].
  destruct (rev (chars_of c)) as [|a t] eqn:Hr.
  { apply (f_equal length) in Hr. rewrite length_rev in Hr.
    destruct (chars_of c); [done|cbn in Hr; lia]. }
  cbn [strip]. rewrite Hrev.
  replace (length (chars_of c)) with (length (a :: t))
    by by rewrite <-Hr, length_rev.
  cbn [length]. apply strip_skip_all.
Qed.

(** Trimming takes the white space off both ends of a text that neither
    starts nor ends with white space. *)
Lemma trim_blank (lead text trail : string) :
  blank lead → blank trail →
  starts_blank text = false → ends_blank text = false →
  (3 ≤ String.length text)%nat →
  trim (lead +:+ text +:+ trail) = text.
Proof.
  intros Hlead Htrail Hstart Hend Hlen. unfold trim.
  apply negb_false_iff, Nat.eqb_eq in Hstart, Hend.
  rewrite <-length_chars_of in Hlen.
  rewrite !chars_of_app, trim_start_blank by done.
  unfold trim_start, space_ahead in *.
  rewrite strip_clean by by rewrite space_at_long.
  rewrite trim_end_blank by done. unfold trim_end, space_behind in *.
  rewrite strip_clean by done. by rewrite rev_involutive, string_of_chars_of.
Qed.




(** *** Rows *)

Lemma split_lines_cons (s : string) : ∃ row rows, split_lines s = row :: rows.
Proof.
  induction s as [|a s (row & rows & IH)]; [by exists "", []|].
  cbn [split_lines]. destruct (Ascii.eqb a LF); [by eexists _, _|].
  destruct s as [|b s]; [cbn; by eexists _, _|].
  destruct (Ascii.eqb a CR && Ascii.eqb b LF); [by eexists _, _|].
  rewrite IH. cbn. by eexists _, _.
Qed.

(** A row that holds no line break is what comes before the next one. *)
Lemma split_lines_row (row s : string) :
  has_char LF row = false → has_char CR row = false →
  split_lines (row +:+ s) =
    match split_lines s with
    | r :: rows => (row +:+ r) :: rows
    | [] => [row]
    end.
Proof.
  induction row as [|a row IH]; intros Hlf Hcr.
  { change ("" +:+ s) with s. by destruct (split_lines_cons s) as (r & rows & ->). }
  cbn [has_char] in Hlf, Hcr.
  apply orb_false_elim in Hlf as [Ha Hlf]. apply orb_false_elim in Hcr as [Ha' Hcr].
  rewrite string_app_cons. cbn [split_lines]. rewrite Ha, Ha'. cbn [andb].
  assert (split_lines (row +:+ s) =
            match split_lines s with
            | r :: rows => (row +:+ r) :: rows
            | [] => [row]
            end) as Hrow by by apply IH.
  destruct (row +:+ s) as [|b tail]; rewrite Hrow;
    destruct (split_lines s); reflexivity.
Qed.

Lemma split_lines_break (crlf : bool) (s : string) :
  split_lines ((if crlf then CRLF else String LF "") +:+ s) = "" :: split_lines s.
Proof. destruct crlf; reflexivity. Qed.

(** Splitting undoes writing rows one after the other, whichever line
    break stands between two of them. *)
Lemma split_lines_unsplit (row : string) (rest : list (bool * string)) :
  Forall (λ r, has_char LF r = false ∧ has_char CR r = false) (row :: rest.*2) →
  split_lines (unsplit_lines row rest) = row :: rest.*2.
Proof.
  revert row. induction rest as [|[crlf r] rest IH]; intros row Hrows.
  - apply Forall_cons in Hrows as [[Hlf Hcr] _]. cbn [unsplit_lines].
    rewrite <-(string_app_nil_r row) at 1. rewrite split_lines_row by done.
    cbn. by rewrite string_app_nil_r.
  - rewrite fmap_cons in Hrows. apply Forall_cons in Hrows as [[Hlf Hcr] Hrest].
    cbn [unsplit_lines]. rewrite split_lines_row, split_lines_break by done.
    rewrite IH by done. by rewrite string_app_nil_r.
Qed.

Lemma length_unsplit_lines (row : string) (rest : list (bool * string)) :
  (String.length row + length rest ≤ String.length (unsplit_lines row rest))%nat.
Proof.
  revert row. induction rest as [|[crlf r] rest IH]; intros row; cbn [unsplit_lines length].
  { lia. }
  specialize (IH r).
  rewrite <-!length_chars_of, !chars_of_app, !length_app, !length_chars_of in *.
  destruct crlf; cbn [length chars_of CRLF String.length]; lia.
Qed.

Lemma slice_nonneg {A} (a b : nat) (l : list A) :
  (a ≤ b ≤ length l)%nat →
  slice (Z.of_nat a) (Z.of_nat b) l = take (b - a) (drop a l).
Proof.
  intros Hab. unfold slice.
  destruct (Z.ltb_spec (Z.of_nat a) 0); [lia|].
  destruct (Z.ltb_spec (Z.of_nat b) 0); [lia|].
  rewrite !Z.min_l by lia. f_equal; [lia|]. f_equal. lia.
Qed.

(** A table of a title row, data rows and two closing rows decodes. *)
Lemma parseCsv_table (text titles : string) (rows : list string)
    (stat_titles stat_values : string) :
  split_lines (trim text) = titles :: rows ++ [stat_titles; stat_values] →
  parseCsv text =
    Ok (Report (map (toArr_row (split_on "," titles)) rows)
          (Some (toArr_row (split_on "," stat_titles) stat_values))).
Proof.
  intros Hrows. unfold parseCsv. rewrite Hrows.
  set (l := titles :: rows ++ [stat_titles; stat_values]).
  assert (length l = S (length rows) + 2)%nat as Hlen.
  { unfold l. cbn [length]. rewrite length_app. cbn [length]. lia. }
  replace (Z.of_nat (length l) - 2)%Z with (Z.of_nat (S (length rows))) by lia.
  change 0%Z with (Z.of_nat 0).
  rewrite !slice_nonneg by lia.
  replace (length l - S (length rows))%nat with 2%nat by lia.
  unfold l. cbn [drop take Nat.sub].
  rewrite take_app_length, drop_app_length. reflexivity.
Qed.

(** A report written row after row, with white space around it. *)
Lemma parseCsv_unsplit (lead trail titles : string) (rows : list (bool * string))
    (b1 b2 : bool) (stat_titles stat_values : string) :
  let text := unsplit_lines titles (rows ++ [(b1, stat_titles); (b2, stat_values)]) in
  blank lead → blank trail →
  starts_blank text = false → ends_blank text = false →
  Forall (λ r, has_char LF r = false ∧ has_char CR r = false)
    (titles :: rows.*2 ++ [stat_titles; stat_values]) →
  parseCsv (lead +:+ text +:+ trail) =
    Ok (Report (map (toArr_row (split_on "," titles)) rows.*2)
          (Some (toArr_row (split_on "," stat_titles) stat_values))).
Proof.
  intros text Hlead Htrail Hstart Hend Hrows. apply parseCsv_table.
  assert (titles ≠ "") as Htitles.
  { intros ->. unfold text, starts_blank in Hstart.
    destruct rows as [|[[] r] rows]; [destruct b1| |]; by vm_compute in Hstart. }
  rewrite trim_blank; try done.
  - unfold text. rewrite split_lines_unsplit; [by rewrite fmap_app|].
    by rewrite fmap_app.
  - pose proof (length_unsplit_lines titles
                  (rows ++ [(b1, stat_titles); (b2, stat_values)])) as Hlen.
    rewrite length_app in Hlen. cbn [length] in Hlen. fold text in Hlen.
    destruct titles; [done|]. cbn [String.length] in Hlen. lia.
Qed.

Lemma split_on_no_sep (c : ascii) (s : string) :
  has_char c s = false → split_on c s = [s].
Proof.
  induction s as [|a s IH]; [done|]. cbn [has_char split_on].
  intros [Ha Hs]%orb_false_elim. by rewrite Ha, IH.
Qed.

Lemma split_on_sep (c : ascii) (a b : string) :
  has_char c a = false → split_on c (a +:+ String c b) = a :: split_on c b.
Proof.
  induction a as [|x a IH]; simpl.
  { intros _. by rewrite Ascii.eqb_refl. }
  intros [Hx Ha]%orb_false_elim. by rewrite Hx, IH.
Qed.

(** The value of a cell is what stands between its first backtick and the
    next one, or the end; a cell without a backtick has none. *)
Lemma cell_value (label value : string) :
  has_char "`" label = false → has_char "`" value = false →
  second (split_on "`" (label +:+ String "`" value)) = VStr value
  ∧ (∀ rest, second (split_on "`" (label +:+ String "`" (value +:+ String "`" rest)))
             = VStr value)
  ∧ second (split_on "`" label) = VUndefined.
Proof.
  intros Hl Hv. split_and!.
  - by rewrite split_on_sep, split_on_no_sep.
  - intros rest. by rewrite !split_on_sep.
  - by rewrite split_on_no_sep.
Qed.

(** C7, as the code has it: the text is trimmed of the white space around
    it, a byte order mark included, and split on line breaks, a line feed
    with or without a carriage return before it; the first row gives the
    titles of the rows that follow; the last two rows are taken off and
    decoded as a table of their own, the row before last giving the titles
    (as they stand, backticks included) under which the cells of the last
    row become [stat]; each cell's value is what follows its first
    backtick, up to the next one.  On the example of the specification
    [list] is [{h1:'1',h2:'2'}] and [stat] is keyed by the texts of the row
    before last. *)
Theorem parseCsv_spec :
  (∀ (text titles : string) (rows : list string) (stat_titles stat_values : string),
     split_lines (trim text) = titles :: rows ++ [stat_titles; stat_values] →
     parseCsv text =
       Ok (Report (map (toArr_row (split_on "," titles)) rows)
             (Some (toArr_row (split_on "," stat_titles) stat_values))))
  ∧ (∀ (lead trail titles : string) (rows : list (bool * string)) (b1 b2 : bool)
       (stat_titles stat_values : string),
       let text :=
         unsplit_lines titles (rows ++ [(b1, stat_titles); (b2, stat_values)]) in
       blank lead → blank trail →
       starts_blank text = false → ends_blank text = false →
       Forall (λ r, has_char LF r = false ∧ has_char CR r = false)
         (titles :: rows.*2 ++ [stat_titles; stat_values]) →
       parseCsv (lead +:+ text +:+ trail) =
         Ok (Report (map (toArr_row (split_on "," titles)) rows.*2)
               (Some (toArr_row (split_on "," stat_titles) stat_values))))
  ∧ (∀ label value : string,
       has_char "`" label = false → has_char "`" value = false →
       second (split_on "`" (label +:+ String "`" value)) = VStr value
       ∧ (∀ rest,
            second (split_on "`" (label +:+ String "`" (value +:+ String "`" rest)))
            = VStr value)
       ∧ second (split_on "`" label) = VUndefined)
  ∧ parseCsv ("h1,h2" +:+ CRLF +:+ "x`1,y`2" +:+ CRLF +:+ "s1`A,s2`B" +:+ CRLF
              +:+ "s1`C,s2`D")
    = Ok (Report [[("h1", VStr "1"); ("h2", VStr "2")]]
            (Some [("s1`A", VStr "C"); ("s2`B", VStr "D")]))
  ∧ parseCsv (String "239" (String "187" (String "191" " "))
              +:+ "h1,h2" +:+ String LF "x`1,y`2" +:+ CRLF +:+ "s1`A,s2`B"
              +:+ String LF "s1`C,s2`D" +:+ CRLF +:+ String "194" (String "160" ""))
    = Ok (Report [[("h1", VStr "1"); ("h2", VStr "2")]]
            (Some [("s1`A", VStr "C"); ("s2`B", VStr "D")])).
Proof.
  split_and!.
  - intros text titles rows s1 s2 Hrows. by apply parseCsv_table.
  - intros lead trail titles rows b1 b2 s1 s2. by apply parseCsv_unsplit.
  - intros label value Hl Hv. by apply cell_value.
  - vm_compute. reflexivity.
  - vm_compute. reflexivity.
Qed.

Lemma parseCsv_spec_witness :
  blank (String "239" (String "187" (String "191" " ")))
  ∧ blank CRLF
  ∧ starts_blank
      (unsplit_lines "a,b" [(false, "x`1,y`2"); (true, "n,m"); (false, "t`3,u`4")])
    = false
  ∧ ends_blank
      (unsplit_lines "a,b" [(false, "x`1,y`2"); (true, "n,m"); (false, "t`3,u`4")])
    = false
  ∧ Forall (λ r, has_char LF r = false ∧ has_char CR r = false)
      ["a,b"; "x`1,y`2"; "n,m"; "t`3,u`4"]
  ∧ parseCsv (String "239" (String "187" (String "191" " "))
              +:+ "a,b" +:+ String LF "x`1,y`2" +:+ CRLF +:+ "n,m"
              +:+ String LF "t`3,u`4" +:+ CRLF)
    = Ok (Report [[("a", VStr "1"); ("b", VStr "2")]]
            (Some [("n", VStr "3"); ("m", VStr "4")]))
  ∧ has_char "`" "x" = false ∧ has_char "`" "1" = false
  ∧ second (split_on "`" ("x" +:+ String "`" "1")) = VStr "1".
Proof.
  assert (blank (String "239" (String "187" (String "191" " ")))) as Hlead.
  { exact (blank_cons (String "239" (String "187" (String "191" ""))) " " eq_refl
             (blank_cons " " "" eq_refl blank_nil)). }
  assert (blank CRLF) as Htrail.
  { exact (blank_cons (String CR "") (String LF "") eq_refl
             (blank_cons (String LF "") "" eq_refl blank_nil)). }
  assert (Forall (λ r, has_char LF r = false ∧ has_char CR r = false)
            ["a,b"; "x`1,y`2"; "n,m"; "t`3,u`4"]) as Hrows.
  { repeat constructor. }
  split_and!; [exact Hlead|exact Htrail|reflexivity|reflexivity|exact Hrows| |
               reflexivity|reflexivity|].
  - exact (proj1 (proj2 parseCsv_spec)
             (String "239" (String "187" (String "191" " "))) CRLF "a,b"
             [(false, "x`1,y`2")] true false "n,m" "t`3,u`4"
             Hlead Htrail eq_refl eq_refl Hrows).
  - exact (proj1 (proj1 (proj2 (proj2 parseCsv_spec)) "x" "1" eq_refl eq_refl)).
Defined.

(** C7, as stated, fails on its own example: [stat] is not keyed by the
    column titles [h1] and [h2]. *)
Lemma parseCsv_stat_keys :
  parseCsv ("h1,h2" +:+ CRLF +:+ "x`1,y`2" +:+ CRLF +:+ "s1`A,s2`B" +:+ CRLF
            +:+ "s1`C,s2`D")
  ≠ Ok (Report [[("h1", VStr "1"); ("h2", VStr "2")]]
          (Some [("h1", VStr "C"); ("h2", VStr "D")])).
Proof. vm_compute. discriminate. Qed.

(** With fewer than three rows there is no table left to take titles from:
    [toArr] throws. *)
Lemma parseCsv_short (text : string) :
  (length (split_lines (trim text)) ≤ 2)%nat → parseCsv text = Throw TypeError.
Proof.
  intros Hlen. unfold parseCsv.
  destruct (split_lines (trim text)) as [|r0 [|r1 [|r2 rest]]]; cbn in Hlen;
    try lia; reflexivity.
Qed.

(** ** What the operations send, and when *)

Lemma missing_groups_nil (p : obj) (required : list string) :
  missing_groups p required = [] ↔ forallb (satisfied p) required = true.
Proof.
  unfold missing_groups. induction required as [|g l IH]; [done|].
  rewrite filter_cons. cbn [forallb]. destruct (satisfied p g); cbn [andb].
  - case_decide; [done|]. exact IH.
  - case_decide; [|done]. split; intros; discriminate.
Qed.

Lemma satisfied_alternatives (p : obj) (g : string) :
  satisfied p g = existsb (λ a, truthy (obj_get a p)) (split_on "|" g).
Proof.
  unfold satisfied. apply Bool.eq_iff_eq_true. rewrite !existsb_exists.
  split; intros (a & Ha & Ht); exists a; (split; [|done]).
  - by apply in_rev.
  - by apply in_rev in Ha.
Qed.

Section Sending.
Context (E : Env) (self : client).

(** The calls of a run are those of [op_trace], after the ones made before. *)
Lemma operation_trace (op : operation) (params : obj) (w : world) :
  (run_operation E self op params w).2 =
    World (op_draws op + draws w) (calls w ++ op_trace E self op params (draws w)).
Proof.
  rewrite operation_run. unfold pipeline_outcome, op_trace.
  fold (op_sent E self op params (draws w)).
  case_bool_decide; [|done].
  destruct (buildObject E _) as [xml|e]; [|cbn [snd]; by rewrite <-!app_assoc].
  destruct (transport_answer _ _ _ _) as [[err|body]|e]; cbn [snd];
    by rewrite <-!app_assoc.
Qed.

Lemma new_calls_operation (op : operation) (params : obj) (w : world) :
  new_calls (run_operation E self op params) w = op_trace E self op params (draws w).
Proof.
  unfold new_calls. rewrite operation_trace. cbn [calls]. apply drop_app_length.
Qed.

(** On a key no step of an operation fills in, the mapping that is signed
    reads as the caller's, and has the key when the caller's has it. *)
Lemma obj_get_op_signed (op : operation) (params : obj) (d : nat) (k : string) :
  wf_obj params →
  k ∉ ["service"; "notify_url"; "op_user_id"; "mch_id"; "nonce_str"; "sub_appid"] →
  obj_get k (op_signed E self op params d) = obj_get k params
  ∧ (k ∈ keys (op_signed E self op params d) ↔ k ∈ keys params).
Proof.
  intros Hwf Hk. repeat (apply not_elem_of_cons in Hk as [? Hk]).
  pose proof (wf_op_params self op (nonce_at E d) params Hwf) as Hwf'.
  assert (k ∉ ["mch_id"; "nonce_str"; "sub_appid"]) as Hwl.
  { rewrite !elem_of_cons, elem_of_nil. tauto. }
  assert (k ∈ keys (op_params self op (nonce_at E d) params) ↔ k ∈ keys params)
    as Hkeys.
  { split; intros Hin.
    - destruct (decide (k ∈ keys params)) as [|Hout]; [done|].
      by apply (obj_get_op_params_absent self op (nonce_at E d)) in Hout.
    - by destruct (obj_get_op_params self op (nonce_at E d) params k) as [_ ?]. }
  split.
  - unfold op_signed. rewrite obj_get_signed_params by done.
    destruct (String.eqb_spec k "service"); [done|].
    destruct (decide (k ∈ keys params)) as [Hin|Hin].
    + rewrite bool_decide_eq_true_2 by by apply Hkeys.
      by destruct (obj_get_op_params self op (nonce_at E d) params k) as [? _].
    + rewrite bool_decide_eq_false_2 by by rewrite Hkeys.
      rewrite obj_get_extendObject, bool_decide_eq_false_2 by done.
      cbn [andb]. symmetry. by apply obj_get_absent.
  - unfold op_signed, signed_params.
    rewrite elem_of_keys_extend, keys_extendObject, elem_of_keys_set. tauto.
Qed.

(** On [mch_id], [nonce_str] and [sub_appid], the mapping that is signed
    reads the caller's value when the caller has the key, whatever the
    value, and the account default otherwise, when that is truthy. *)
Lemma obj_get_op_signed_default (op : operation) (params : obj) (d : nat) (k : string) :
  wf_obj params → k ∈ ["mch_id"; "nonce_str"; "sub_appid"] →
  obj_get k (op_signed E self op params d) =
    if bool_decide (k ∈ keys params) then obj_get k params
    else default_or_undefined
           (account_default self (nonce_at E (op_draws op - 32 + d)) k).
Proof.
  intros Hwf Hk.
  pose proof (wf_op_params self op (nonce_at E d) params Hwf) as Hwf'.
  assert (k ≠ "service" ∧ k ≠ "notify_url" ∧ k ≠ "op_user_id") as (Hs & Hn & Hu).
  { repeat (apply elem_of_cons in Hk as [->|Hk]); try done.
    by apply elem_of_nil in Hk. }
  unfold op_signed. rewrite obj_get_signed_params by done.
  destruct (String.eqb_spec k "service"); [done|].
  rewrite obj_get_extendObject, obj_get_defaults.
  rewrite (bool_decide_eq_true_2 (k ∈ ["mch_id"; "nonce_str"; "sub_appid"])) by done.
  cbn [andb]. fold (default_or_undefined
                      (account_default self (nonce_at E (op_draws op - 32 + d)) k)).
  destruct (decide (k ∈ keys params)) as [Hin|Hin].
  - destruct (obj_get_op_params self op (nonce_at E d) params k) as [Hg Hin'];
      [done..|].
    by rewrite !bool_decide_eq_true_2.
  - rewrite !bool_decide_eq_false_2; [done|done|].
    by apply obj_get_op_params_absent.
Qed.

(** The mapping that is sent is the signed one coerced, on every key but
    [sign] and [long_url]. *)
Lemma obj_get_op_sent (op : operation) (params : obj) (d : nat) (k : string) :
  k ≠ "sign" → k ≠ "long_url" →
  obj_get k (op_sent E self op params d) =
    stringify_value (obj_get k (op_signed E self op params d)).
Proof.
  intros Hs Hl. unfold op_sent.
  rewrite obj_get_sent_params by (done || apply wf_op_signed).
  case_bool_decide as Hin; [done|].
  apply obj_get_absent in Hin. rewrite Hin.
  by destruct (String.eqb_spec k "sign").
Qed.
End Sending.

Ltac split_group :=
  repeat match goal with
         | |- context [split_on ?c (String ?a ?g)] =>
             let l := eval vm_compute in (split_on c (String a g)) in
             change (split_on c (String a g)) with l
         end.

Section Acceptance.
Context (E : Env) (self : client).

Lemma truthy_validated (op : operation) (params : obj) (d : nat) (k : string) :
  wf_obj params →
  k ∉ ["service"; "sign"; "long_url"; "notify_url"; "op_user_id";
       "mch_id"; "nonce_str"; "sub_appid"] →
  truthy (obj_get k (op_sent E self op params d)) = present (obj_get k params).
Proof.
  intros Hwf Hk. unfold op_sent, op_signed.
  by rewrite obj_get_validated, truthy_stringify_value.
Qed.

Lemma truthy_default_or_undefined (v : value) :
  present (default_or_undefined v) = truthy v.
Proof.
  unfold default_or_undefined. destruct (truthy v) eqn:Ht; [|done].
  by apply truthy_present.
Qed.

Lemma truthy_sent_mch_id (op : operation) (params : obj) (d : nat) :
  wf_obj params →
  truthy (obj_get "mch_id" (op_sent E self op params d)) =
    if bool_decide ("mch_id" ∈ keys params) then present (obj_get "mch_id" params)
    else truthy (mchId self).
Proof.
  intros Hwf. rewrite obj_get_op_sent by done.
  rewrite truthy_stringify_value, obj_get_op_signed_default; [|done|].
  - case_bool_decide; [done|]. by rewrite truthy_default_or_undefined.
  - rewrite !elem_of_cons. auto.
Qed.

Lemma truthy_sent_service (op : operation) (params : obj) (d : nat) :
  wf_obj params →
  truthy (obj_get "service" (op_sent E self op params d)) = true.
Proof.
  intros Hwf. rewrite obj_get_op_sent by done.
  rewrite truthy_stringify_value, obj_get_service_signed by done.
  destruct op; try done. cbn [service_of]. unfold js_or.
  destruct (truthy (obj_get "service" params)) eqn:Ht; [|done].
  by apply truthy_present.
Qed.

(** An operation finds no group missing exactly when the caller's mapping
    has every required group, a value counting as there when it is neither
    undefined, null nor the empty string; [service] is never missing, and
    [mch_id] is the account's only when the caller has no such key. *)
Lemma no_missing_group_iff (op : operation) (params : obj) (d : nat) :
  wf_obj params →
  bool_decide (missing_groups (op_sent E self op params d) (required_of op) = [])
  = accepted self op params.
Proof.
  intros Hwf.
  rewrite (bool_decide_ext _ _ (missing_groups_nil _ _)).
  assert (forallb (satisfied (op_sent E self op params d)) (required_of op)
          = accepted self op params) as <-.
  { destruct op; cbn [required_of forallb accepted];
      rewrite !satisfied_alternatives; split_group; cbn [existsb];
      rewrite ?truthy_sent_mch_id, ?truthy_sent_service by done;
      rewrite !truthy_validated
        by (done || (apply (bool_decide_unpack _); vm_compute; exact I));
      repeat match goal with
             | |- context [present (obj_get ?k params)] =>
                 destruct (present (obj_get k params))
             end;
      try case_bool_decide; try destruct (truthy (mchId self)); reflexivity. }
  destruct (forallb _ _); [by apply bool_decide_eq_true_2|].
  by apply bool_decide_eq_false_2.
Qed.
End Acceptance.

Lemma is_text_stringify (o : obj) (k : string) :
  is_text_or_absent (obj_get k (stringify o)) = true.
Proof. rewrite obj_get_stringify. by destruct (obj_get k o) as [| |[]|n|s]. Qed.

Lemma elem_of_keys_delete (k k' : string) (o : obj) :
  k ∈ keys (obj_delete k' o) ↔ k ≠ k' ∧ k ∈ keys o.
Proof. rewrite keys_delete, list_elem_of_filter. tauto. Qed.

(** Laying a mapping over a lone [sign] does not change what is digested. *)
Lemma sign_input_extend_sign (self : client) (v : value) (q : obj) :
  wf_obj q →
  sign_input self (_extend (obj_literal [("sign", v)]) q) = sign_input self q.
Proof.
  intros Hwf. unfold sign_input. f_equal.
  assert (wf_obj (_extend (obj_literal [("sign", v)]) q)) as Hwf'.
  { apply wf_extend. cbn. apply NoDup_singleton. }
  apply toQueryString_ext.
  - apply NoDup_Permutation.
    + by apply wf_obj_delete.
    + by apply wf_obj_delete.
    + intros k. rewrite !elem_of_keys_delete, elem_of_keys_extend. cbn.
      rewrite list_elem_of_singleton. tauto.
  - intros k. rewrite !obj_get_delete.
    destruct (String.eqb_spec k "sign") as [->|Hne]; [done|].
    rewrite obj_get_extend_wf by done. case_bool_decide as Hin; [done|].
    rewrite (obj_get_absent k q) by done. cbn.
    by destruct (String.eqb_spec k "sign").
Qed.

Lemma sign_input_stringify (self : client) (o : obj) :
  sign_input self (stringify o) = sign_input self o.
Proof.
  unfold sign_input. by rewrite obj_delete_stringify, toQueryString_stringify.
Qed.

Section Sent_mapping.
Context (E : Env) (self : client).

Lemma is_transport_transport_call (secure : bool) (xml : string) :
  is_transport (transport_call E self secure xml) = true.
Proof. by destruct secure. Qed.

(** The builder is called in a run exactly when the caller's mapping has
    every required group, and then on the mapping with the signature and
    every value coerced. *)
Lemma built_by_operation (op : operation) (params : obj) (w : world) (o : obj) :
  wf_obj params →
  CallBuildXml o ∈ new_calls (run_operation E self op params) w ↔
  accepted self op params = true ∧ o = op_sent E self op params (draws w).
Proof.
  intros Hwf. rewrite new_calls_operation. unfold op_trace.
  rewrite no_missing_group_iff by done.
  rewrite elem_of_cons. destruct (accepted self op params).
  - rewrite elem_of_cons. split; [|intros [_ ->]; auto].
    intros [?|[[= ->]|Hin]]; [done|done|]. exfalso.
    destruct (buildObject E _) as [xml|e]; [|by apply elem_of_nil in Hin].
    apply elem_of_cons in Hin as [Hc|Hin].
    { unfold transport_call in Hc. by destruct (op_https op). }
    destruct (transport_answer _ _ _ _) as [[err|body]|e];
      [by apply elem_of_nil in Hin| |by apply elem_of_nil in Hin].
    by apply list_elem_of_singleton in Hin.
  - rewrite elem_of_nil. split; [intros [?|[]]; done|intros [? _]; done].
Qed.

(** The first call of a run is the digest, on the canonical string of the
    mapping that is signed. *)
Lemma first_call_of_operation (op : operation) (params : obj) (w : world) :
  head (new_calls (run_operation E self op params) w) =
    Some (CallDigest "MD5" (sign_input self (op_signed E self op params (draws w)))).
Proof. by rewrite new_calls_operation. Qed.

(** An operation calls a transport at most once: once when the caller's
    mapping has every required group and the XML builder returns a
    document, never otherwise.  [refund] goes over HTTPS to the host and
    path of the gateway address, with the certificate and the passphrase of
    the account; the other operations post to the gateway address without
    them.  What is posted is the document the builder made of the mapping
    with the signature and every value coerced. *)
Theorem one_request_when_accepted (op : operation) (params : obj) (w : world) :
  wf_obj params →
  filter (λ c, is_transport c = true) (new_calls (run_operation E self op params) w) =
    if accepted self op params then
      match buildObject E (op_sent E self op params (draws w)) with
      | Ok xml =>
          [match op with
           | Refund =>
               CallHttps (url_parse E URL).1 (url_parse E URL).2
                 (pfx self) (passphrase self) xml
           | _ => CallHttp URL xml
           end]
      | Throw _ => []
      end
    else [].
Proof.
  intros Hwf. rewrite new_calls_operation. unfold op_trace.
  rewrite no_missing_group_iff by done.
  rewrite filter_cons. cbn [is_transport]. case_decide; [done|].
  destruct (accepted self op params); [|done].
  rewrite filter_cons. cbn [is_transport]. case_decide; [done|].
  destruct (buildObject E _) as [xml|e]; [|done].
  rewrite filter_cons_True by apply is_transport_transport_call.
  destruct (transport_answer _ _ _ _) as [[err|body]|e];
    rewrite ?filter_cons, ?filter_nil; cbn [is_transport];
    try case_decide; try done; by destruct op.
Qed.


Lemma validate_callback_ok_iff (body : string) (answer : parsed) (data : payload) :
  validate_callback body answer = Ok (Reply None data) ↔
  ∃ d, answer = ParseRoot "xml" d
       ∧ xml_truthy (xml_prop "pay_info" d) = true
       ∧ data = Decoded d.
Proof.
  unfold validate_callback. split.
  - destruct answer as [msg| |root content]; try done.
    destruct (String.eqb_spec root "xml") as [->|Hroot]; [|done].
    destruct (xml_truthy _) eqn:Hpay; cbn [negb]; [|done].
    intros [= <-]. by exists content.
  - intros (d & -> & Hpay & ->). cbn. by rewrite Hpay.
Qed.

(** [validate] hands on no error exactly when the body parses to a document
    with root [xml] and a truthy [pay_info]; the data is then the unwrapped
    document. *)
Theorem validate_ok_iff (body : string) (data : payload) (w : world) :
  (validate E body w).1 = Ok (Reply None data) ↔
  ∃ d, parseString E body = ParseRoot "xml" d
       ∧ xml_truthy (xml_prop "pay_info" d) = true
       ∧ data = Decoded d.
Proof. rewrite validate_run. apply validate_callback_ok_iff. Qed.

(** An operation hands on no error exactly when the caller's mapping has
    every required group, the builder returns a document, the gateway
    answers it, and the answer has root [xml] and a truthy [pay_info]; this
    holds for the queries, the refund and the close as for the order. *)
Theorem operation_succeeds_iff (op : operation) (params : obj) (w : world)
    (data : payload) :
  wf_obj params →
  (run_operation E self op params w).1 = Ok (Reply None data) ↔
  accepted self op params = true
  ∧ ∃ xml body d,
      buildObject E (op_sent E self op params (draws w)) = Ok xml
      ∧ transport_answer E self (op_https op) xml = Ok (inr body)
      ∧ parseString E body = ParseRoot "xml" d
      ∧ xml_truthy (xml_prop "pay_info" d) = true
      ∧ data = Decoded d.
Proof.
  intros Hwf. rewrite operation_run. unfold pipeline_outcome.
  fold (op_sent E self op params (draws w)).
  rewrite no_missing_group_iff by done.
  destruct (accepted self op params).
  2:{ split; [done|]. by intros [? _]. }
  destruct (buildObject E _) as [xml|e] eqn:Hbuild.
  2:{ split; [done|]. by intros (_ & ? & ? & ? & ? & _). }
  destruct (transport_answer _ _ _ _) as [[err|body]|e] eqn:Hans.
  - split; [done|]. intros (_ & ? & ? & ? & [= <-] & ? & _). congruence.
  - cbn [fst]. rewrite validate_callback_ok_iff. split.
    + intros (d & ? & ? & ?). split; [done|]. by exists xml, body, d.
    + intros (_ & xml' & body' & d & [= <-] & Hans' & ? & ? & ?).
      rewrite Hans in Hans'. injection Hans' as <-. by exists d.
  - split; [done|]. intros (_ & ? & ? & ? & [= <-] & ? & _). congruence.
Qed.

(** An operation ends with the missing-parameters error, after the digest
    and nothing else, exactly when the caller's mapping lacks a required
    group: a key with a value that is undefined, null or the empty string
    is lacking, one with 0 or false is not; a [mch_id] key of the caller,
    even an empty one, keeps the account's merchant id out. *)
Theorem rejected_iff_not_accepted (op : operation) (params : obj) (w : world) :
  wf_obj params →
  accepted self op params = false ↔
  ∃ missing,
    missing ≠ []
    ∧ run_operation E self op params w =
        (Ok (Reply (Some (ErrText ("missing params " +:+ join "," missing))) NoData),
         World (op_draws op + draws w)
           (calls w ++
              [CallDigest "MD5"
                 (sign_input self (op_signed E self op params (draws w)))])).
Proof.
  intros Hwf. rewrite operation_run. unfold pipeline_outcome.
  fold (op_sent E self op params (draws w)).
  rewrite <-(no_missing_group_iff E self op params (draws w) Hwf).
  case_bool_decide as Hmiss.
  - split; [done|]. intros (missing & _ & Hrun).
    destruct (buildObject E _) as [xml|e]; [|done].
    destruct (transport_answer _ _ _ _) as [[err|body]|e]; [| |done];
      injection Hrun as _ Hcalls;
      apply (f_equal length) in Hcalls; rewrite !length_app in Hcalls;
      cbn [length] in Hcalls; lia.
  - split; [|done]. intros _.
    by exists (missing_groups (op_sent E self op params (draws w)) (required_of op)).
Qed.

(** *** The mapping that is handed to the builder *)

Lemma wf_op_sent (op : operation) (params : obj) (d : nat) :
  wf_obj (op_sent E self op params d).
Proof.
  unfold op_sent, sent_params, wf_obj. rewrite keys_stringify.
  unfold encode_long_url. destruct (truthy _).
  - apply wf_obj_set, wf_extend. cbn. apply NoDup_singleton.
  - apply wf_extend. cbn. apply NoDup_singleton.
Qed.

Lemma elem_of_keys_encode_long_url (k : string) (o : obj) :
  k ∈ keys (encode_long_url E o) ↔ k ∈ keys o.
Proof.
  unfold encode_long_url. destruct (truthy _) eqn:Ht; [|done].
  rewrite elem_of_keys_set. split; [|auto].
  intros [->|?]; [|done]. apply obj_get_present_key. intros Heq.
  by rewrite Heq in Ht.
Qed.

(** The keys of the mapping that is sent: [sign] and [service], the
    caller's, those of the three account defaults that are truthy, and the
    one an operation lays itself. *)
Lemma keys_op_sent (op : operation) (params : obj) (d : nat) (k : string) :
  k ∈ keys (op_sent E self op params d) ↔
    k = "sign" ∨ k = "service" ∨ k ∈ keys params
    ∨ (k ∈ ["mch_id"; "nonce_str"; "sub_appid"]
       ∧ truthy (account_default self (nonce_at E (op_draws op - 32 + d)) k) = true)
    ∨ (op = UnifiedOrder ∧ k = "notify_url")
    ∨ (op = Refund ∧ k = "op_user_id" ∧ truthy (mchId self) = true).
Proof.
  unfold op_sent, sent_params. rewrite keys_stringify, elem_of_keys_encode_long_url.
  rewrite elem_of_keys_extend. unfold op_signed, signed_params.
  rewrite elem_of_keys_extend, keys_extendObject, obj_get_defaults, elem_of_keys_set.
  assert (k ∈ keys (obj_literal [("sign", VStr (toUpperCase (md5 E
            (sign_input self
               (_extend
                  (extendObject (defaults self (nonce_at E (op_draws op - 32 + d)))
                     ["mch_id"; "nonce_str"; "sub_appid"])
                  (obj_set "service" (service_of op params)
                     (op_params self op (nonce_at E d) params)))))))])
          ↔ k = "sign") as ->.
  { cbn. by rewrite list_elem_of_singleton. }
  assert (k = "op_user_id" ∧ truthy (account_default self (nonce_at E d) k) = true
          ↔ k = "op_user_id" ∧ truthy (mchId self) = true) as Huser.
  { split; intros [-> ?]; done. }
  destruct op; cbn [op_params];
    rewrite ?elem_of_keys_set, ?elem_of_keys_extend, ?keys_extendObject,
      ?obj_get_defaults, ?list_elem_of_singleton, ?Huser;
    intuition congruence.
Qed.

(** When the caller passes no [sign] and no truthy [long_url], the string
    that was digested is the canonical string of the mapping that is sent,
    and the [sign] that is sent is the digest of it in upper case. *)
Lemma op_sent_signature (op : operation) (params : obj) (d : nat) :
  wf_obj params → "sign" ∉ keys params → truthy (obj_get "long_url" params) = false →
  sign_input self (op_sent E self op params d)
    = sign_input self (op_signed E self op params d)
  ∧ obj_get "sign" (op_sent E self op params d)
    = VStr (toUpperCase (md5 E (sign_input self (op_signed E self op params d)))).
Proof.
  intros Hwf Hsign Hlong.
  set (q := op_signed E self op params d).
  pose proof (wf_op_signed E self op params d) as Hwfq. fold q in Hwfq.
  destruct (obj_get_op_signed E self op params d "sign") as [_ Hsk];
    [done|apply (bool_decide_unpack _); vm_compute; exact I|].
  destruct (obj_get_op_signed E self op params d "long_url") as [Hlg _];
    [done|apply (bool_decide_unpack _); vm_compute; exact I|].
  fold q in Hsk, Hlg. split.
  - unfold op_sent. fold q. unfold sent_params.
    rewrite sign_input_stringify.
    unfold encode_long_url.
    rewrite obj_get_extend_wf by done.
    assert (obj_get "long_url"
              (obj_literal [("sign", VStr (toUpperCase (md5 E (sign_input self q))))])
            = VUndefined) as -> by done.
    assert (truthy (if bool_decide ("long_url" ∈ keys q)
                    then obj_get "long_url" q else VUndefined) = false) as ->.
    { case_bool_decide; [by rewrite Hlg|done]. }
    by apply sign_input_extend_sign.
  - unfold op_sent. fold q. rewrite obj_get_sent_params by done.
    rewrite bool_decide_eq_false_2 by by rewrite Hsk. done.
Qed.

Lemma op_sent_caller_sign (op : operation) (params : obj) (d : nat) :
  wf_obj params → "sign" ∈ keys params →
  obj_get "sign" (op_sent E self op params d) = stringify_value (obj_get "sign" params).
Proof.
  intros Hwf Hin.
  destruct (obj_get_op_signed E self op params d "sign") as [Hg Hk];
    [done|apply (bool_decide_unpack _); vm_compute; exact I|].
  unfold op_sent. rewrite obj_get_sent_params by (done || apply wf_op_signed).
  rewrite bool_decide_eq_true_2 by by apply Hk. by rewrite Hg.
Qed.

Lemma op_sent_long_url (op : operation) (params : obj) (d : nat) :
  wf_obj params → truthy (obj_get "long_url" params) = true →
  obj_get "long_url" (op_signed E self op params d) = obj_get "long_url" params
  ∧ obj_get "long_url" (op_sent E self op params d) =
      VStr (encodeURIComponent E (ToString (obj_get "long_url" params))).
Proof.
  intros Hwf Hlong.
  destruct (obj_get_op_signed E self op params d "long_url") as [Hg Hk];
    [done|apply (bool_decide_unpack _); vm_compute; exact I|].
  split; [done|].
  assert ("long_url" ∈ keys (op_signed E self op params d)) as Hin.
  { apply obj_get_present_key. rewrite Hg. by destruct (obj_get "long_url" params). }
  unfold op_sent, sent_params. rewrite obj_get_stringify. unfold encode_long_url.
  rewrite obj_get_extend_wf by apply wf_op_signed.
  rewrite bool_decide_eq_true_2, Hg, Hlong by done.
  by rewrite obj_get_set.
Qed.

Lemma op_sent_account_defaults (op : operation) (params : obj) (d : nat) (k : string) :
  wf_obj params → k ∈ ["mch_id"; "nonce_str"; "sub_appid"] →
  obj_get k (op_sent E self op params d) =
    stringify_value
      (if bool_decide (k ∈ keys params) then obj_get k params
       else default_or_undefined
              (account_default self (nonce_at E (op_draws op - 32 + d)) k)).
Proof.
  intros Hwf Hk. rewrite obj_get_op_sent.
  - by rewrite obj_get_op_signed_default.
  - intros ->. apply (bool_decide_pack _) in Hk. by vm_compute in Hk.
  - intros ->. apply (bool_decide_pack _) in Hk. by vm_compute in Hk.
Qed.

Lemma op_sent_operation_defaults (params : obj) (d : nat) :
  wf_obj params →
  obj_get "notify_url" (op_sent E self UnifiedOrder params d) =
    stringify_value (js_or (obj_get "notify_url" params) (notifyUrl self))
  ∧ obj_get "op_user_id" (op_sent E self Refund params d) =
      stringify_value
        (if bool_decide ("op_user_id" ∈ keys params) then obj_get "op_user_id" params
         else default_or_undefined (mchId self)).
Proof.
  intros Hwf. split.
  - rewrite obj_get_op_sent by done. f_equal. unfold op_signed.
    rewrite obj_get_signed_params by by apply wf_op_params.
    cbn [String.eqb Ascii.eqb Bool.eqb op_params].
    rewrite bool_decide_eq_true_2 by (apply elem_of_keys_set; by left).
    by rewrite obj_get_set.
  - rewrite obj_get_op_sent by done. f_equal. unfold op_signed.
    rewrite obj_get_signed_params by by apply wf_op_params.
    cbn [String.eqb Ascii.eqb Bool.eqb op_params].
    rewrite obj_get_extend_wf, obj_get_extendObject, obj_get_defaults by done.
    rewrite (bool_decide_ext _ _ (elem_of_keys_extend "op_user_id" _ params)).
    rewrite (bool_decide_eq_true_2 ("op_user_id" ∈ ["op_user_id"])) by by left.
    rewrite (obj_get_extendObject _ ["mch_id"; "nonce_str"; "sub_appid"]).
    change (account_default self (nonce_at E d) "op_user_id") with (mchId self).
    cbn [andb]. fold (default_or_undefined (mchId self)).
    destruct (decide ("op_user_id" ∈ keys params)) as [Hin|Hin].
    + rewrite !bool_decide_eq_true_2; [done|done|by right].
    + rewrite (bool_decide_eq_false_2 ("op_user_id" ∈ keys params)) by done.
      case_bool_decide as Hk; [done|].
      rewrite keys_extendObject, obj_get_defaults in Hk.
      change (account_default self (nonce_at E d) "op_user_id") with (mchId self) in Hk.
      unfold default_or_undefined.
      destruct (truthy (mchId self)); [|done].
      destruct Hk. left. split; [by left|done].
Qed.

(** In a run whose caller passes no [sign] and no truthy [long_url], the
    mapping handed to the builder carries its own signature: the string the
    run digested, first thing, is the canonical string of that mapping,
    its [sign] is the digest of it in upper case, and signing the mapping
    again, as the receiver does, gives the same text. *)
Theorem sent_signature_verifies (op : operation) (params : obj) (w : world)
    (o : obj) :
  wf_obj params → "sign" ∉ keys params → truthy (obj_get "long_url" params) = false →
  CallBuildXml o ∈ new_calls (run_operation E self op params) w →
  let signature := toUpperCase (md5 E (sign_input self o)) in
  head (new_calls (run_operation E self op params) w)
    = Some (CallDigest "MD5" (sign_input self o))
  ∧ obj_get "sign" o = VStr signature
  ∧ ∀ w', _getSign E self o VUndefined w' =
            (Ok signature,
             World (draws w') (calls w' ++ [CallDigest "MD5" (sign_input self o)])).
Proof.
  intros Hwf Hsign Hlong [_ ->]%built_by_operation; [|done]. cbn zeta.
  destruct (op_sent_signature op params (draws w) Hwf Hsign Hlong) as [Hin Hs].
  rewrite first_call_of_operation, Hin. split_and!; [done|done|].
  intros w'. change VUndefined with (signType_of None).
  by rewrite getSign_run, Hin.
Qed.

(** In every run, a [sign] key of the caller wins over the computed
    signature, whatever its value: the mapping handed to the builder reads
    the caller's value on [sign], coerced, and an undefined, null or empty
    one goes out as it is. *)
Theorem caller_sign_key_wins (op : operation) (params : obj) (w : world) (o : obj) :
  wf_obj params → "sign" ∈ keys params →
  CallBuildXml o ∈ new_calls (run_operation E self op params) w →
  obj_get "sign" o = stringify_value (obj_get "sign" params).
Proof.
  intros Hwf Hin [_ ->]%built_by_operation; [|done].
  by apply op_sent_caller_sign.
Qed.

(** In every run, a truthy [long_url] is signed as the caller gave it and
    handed to the builder URI-encoded: the string digested is the canonical
    string of a mapping that reads the caller's value on [long_url], and
    that the mapping built agrees with on every other key but [sign]. *)
Theorem long_url_encoded_after_signing (op : operation) (params : obj) (w : world)
    (o : obj) :
  wf_obj params → truthy (obj_get "long_url" params) = true →
  CallBuildXml o ∈ new_calls (run_operation E self op params) w →
  ∃ q,
    head (new_calls (run_operation E self op params) w)
      = Some (CallDigest "MD5" (sign_input self q))
    ∧ obj_get "long_url" q = obj_get "long_url" params
    ∧ (∀ k, k ≠ "sign" → k ≠ "long_url" → obj_get k o = stringify_value (obj_get k q))
    ∧ obj_get "long_url" o =
        VStr (encodeURIComponent E (ToString (obj_get "long_url" params))).
Proof.
  intros Hwf Hlong [_ ->]%built_by_operation; [|done].
  destruct (op_sent_long_url op params (draws w) Hwf Hlong) as [Hq Ho].
  exists (op_signed E self op params (draws w)). split_and!; try done.
  - apply first_call_of_operation.
  - intros k Hs Hl. by apply obj_get_op_sent.
Qed.

(** In every run, on [mch_id], [nonce_str] and [sub_appid] the mapping
    handed to the builder reads the caller's value when the caller has the
    key, even an empty one, and otherwise the account default when that is
    truthy, and nothing when it is not. *)
Theorem sent_account_defaults (op : operation) (params : obj) (w : world) (o : obj)
    (k : string) :
  wf_obj params → k ∈ ["mch_id"; "nonce_str"; "sub_appid"] →
  CallBuildXml o ∈ new_calls (run_operation E self op params) w →
  obj_get k o =
    stringify_value
      (if bool_decide (k ∈ keys params) then obj_get k params
       else default_or_undefined
              (account_default self (nonce_at E (op_draws op - 32 + draws w)) k)).
Proof.
  intros Hwf Hk [_ ->]%built_by_operation; [|done].
  by apply op_sent_account_defaults.
Qed.

(** In every run, the mapping handed to the builder has each key once; its
    keys are [sign], [service], the caller's, those of [mch_id],
    [nonce_str] and [sub_appid] the account has a truthy default for,
    [notify_url] in an order and [op_user_id] in a refund of an account
    with a merchant id; and every value is a string, or is null or
    undefined: no number or boolean is left. *)
Theorem built_mapping_keys_and_values (op : operation) (params : obj) (w : world)
    (o : obj) :
  wf_obj params →
  CallBuildXml o ∈ new_calls (run_operation E self op params) w →
  wf_obj o
  ∧ (∀ k, k ∈ keys o ↔
       k = "sign" ∨ k = "service" ∨ k ∈ keys params
       ∨ (k ∈ ["mch_id"; "nonce_str"; "sub_appid"]
          ∧ truthy (account_default self
                      (nonce_at E (op_draws op - 32 + draws w)) k) = true)
       ∨ (op = UnifiedOrder ∧ k = "notify_url")
       ∨ (op = Refund ∧ k = "op_user_id" ∧ truthy (mchId self) = true))
  ∧ (∀ k, is_text_or_absent (obj_get k o) = true).
Proof.
  intros Hwf [_ ->]%built_by_operation; [|done]. split_and!.
  - apply wf_op_sent.
  - intros k. apply keys_op_sent.
  - intros k. unfold op_sent, sent_params. apply is_text_stringify.
Qed.

(** *** A [sign] of the caller's *)

(** The mapping an operation signs does not depend, off the key [sign], on
    whether the caller passes a [sign]. *)
Lemma op_signed_without_sign (op : operation) (params : obj) (d : nat) (k : string) :
  wf_obj params → k ≠ "sign" →
  obj_get k (op_signed E self op (obj_delete "sign" params) d)
    = obj_get k (op_signed E self op params d)
  ∧ (k ∈ keys (op_signed E self op (obj_delete "sign" params) d)
     ↔ k ∈ keys (op_signed E self op params d)).
Proof.
  intros Hwf Hk.
  pose proof (wf_obj_delete "sign" params Hwf) as Hwfd.
  assert (∀ k', k' ≠ "sign" → obj_get k' (obj_delete "sign" params) = obj_get k' params)
    as Hget.
  { intros k' Hk'. rewrite obj_get_delete. by destruct (String.eqb_spec k' "sign"). }
  assert (∀ k', k' ≠ "sign" → k' ∈ keys (obj_delete "sign" params) ↔ k' ∈ keys params)
    as Hkeys.
  { intros k' Hk'. rewrite elem_of_keys_delete. tauto. }
  assert (service_of op (obj_delete "sign" params) = service_of op params) as Hservice.
  { destruct op; cbn [service_of]; try done. by rewrite Hget. }
  set (n0 := nonce_at E d).
  assert (obj_get k (op_params self op n0 (obj_delete "sign" params))
          = obj_get k (op_params self op n0 params)
          ∧ (k ∈ keys (op_params self op n0 (obj_delete "sign" params))
             ↔ k ∈ keys (op_params self op n0 params))) as [Hpg Hpk].
  { pose proof (Hkeys k Hk) as Hkk.
    destruct op; cbn [op_params]; try (split; [by apply Hget|done]).
    - split.
      + rewrite !obj_get_set, !Hget by done. done.
      + rewrite !elem_of_keys_set. tauto.
    - split.
      + rewrite !obj_get_extend_wf by done.
        by rewrite (bool_decide_ext _ _ Hkk), Hget.
      + rewrite !elem_of_keys_extend. tauto. }
  unfold op_signed. fold n0. rewrite Hservice. split.
  - rewrite !obj_get_signed_params by by apply wf_op_params.
    by rewrite (bool_decide_ext _ _ Hpk), Hpg.
  - unfold signed_params. rewrite !elem_of_keys_extend, !elem_of_keys_set. tauto.
Qed.

Lemma sign_input_without_sign (op : operation) (params : obj) (d : nat) :
  wf_obj params →
  sign_input self (op_signed E self op (obj_delete "sign" params) d)
  = sign_input self (op_signed E self op params d).
Proof.
  intros Hwf. unfold sign_input. f_equal. apply toQueryString_ext.
  - apply NoDup_Permutation; [apply wf_obj_delete, wf_op_signed..|].
    intros k. rewrite !elem_of_keys_delete.
    destruct (decide (k = "sign")) as [->|Hk]; [tauto|].
    destruct (op_signed_without_sign op params d k Hwf Hk) as [_ Hkeys]. tauto.
  - intros k. rewrite !obj_get_delete.
    destruct (String.eqb_spec k "sign") as [->|Hk]; [done|].
    by destruct (op_signed_without_sign op params d k Hwf Hk) as [Hget _].
Qed.

(** C10: when the caller's mapping has a truthy [sign], a signature is
    computed all the same, and first thing: the run begins with the digest
    of the canonical string of the mapping that is signed, a string that is
    the same as when the caller passes no [sign]; [_getSign] returns the
    upper-cased digest of it, and in a run on the caller's mapping without
    its [sign] that is what the builder gets on [sign].  But the mapping
    that is validated, handed to the builder and sent reads the string form
    of the caller's value on [sign].  The calls of the run are the digest;
    then, when no group is missing, the builder on that mapping; then, when
    the builder returns, the transport on the document; then the parser on
    an answer. *)
Theorem caller_sign_is_sent (op : operation) (params : obj) (v : value) (w : world) :
  wf_obj params → obj_get "sign" params = v → truthy v = true →
  let q := op_signed E self op params (draws w) in
  let p := op_sent E self op params (draws w) in
  let unsigned := obj_delete "sign" params in
  let computed := toUpperCase (md5 E (sign_input self q)) in
  sign_input self q = sign_input self (op_signed E self op unsigned (draws w))
  ∧ (_getSign E self q VUndefined w).1 = Ok computed
  ∧ (∀ o, CallBuildXml o ∈ new_calls (run_operation E self op unsigned) w →
          obj_get "sign" o = VStr computed)
  ∧ obj_get "sign" p = VStr (ToString v)
  ∧ calls (run_operation E self op params w).2 =
      calls w ++
      CallDigest "MD5" (sign_input self q) ::
      (if bool_decide (missing_groups p (required_of op) = []) then
         CallBuildXml p ::
         match buildObject E p with
         | Throw _ => []
         | Ok xml =>
             transport_call E self (op_https op) xml ::
             match transport_answer E self (op_https op) xml with
             | Ok (inr body) => [CallParseXml body]
             | _ => []
             end
         end
       else []).
Proof.
  intros Hwf Hsign Hv. cbn zeta.
  assert ("sign" ∈ keys params) as Hin.
  { apply obj_get_present_key. rewrite Hsign. by destruct v. }
  pose proof (sign_input_without_sign op params (draws w) Hwf) as Hsame.
  split_and!.
  - done.
  - change VUndefined with (signType_of None). by rewrite getSign_run.
  - intros o [_ ->]%built_by_operation; [|by apply wf_obj_delete].
    rewrite <-Hsame.
    destruct (obj_get_op_signed E self op (obj_delete "sign" params) (draws w) "sign")
      as [_ Hk];
      [by apply wf_obj_delete|apply (bool_decide_unpack _); vm_compute; exact I|].
    unfold op_sent. rewrite obj_get_sent_params by (done || apply wf_op_signed).
    rewrite bool_decide_eq_false_2; [done|].
    rewrite Hk, elem_of_keys_delete. tauto.
  - rewrite op_sent_caller_sign, Hsign by done. by apply stringify_value_truthy.
  - by rewrite operation_trace.
Qed.
End Sent_mapping.

Section Own_defaults.
Context (E : Env) (self : client).

(** The two defaults an operation lays itself, in the mapping it hands to
    the builder.  [unifiedOrder] replaces a falsy [notify_url] of the
    caller by the account's; [refund] lays the merchant id under
    [op_user_id], which an [op_user_id] key of the caller overrides
    whatever its value. *)
Theorem sent_operation_defaults (params : obj) (w : world) (o : obj) :
  wf_obj params →
  (CallBuildXml o ∈ new_calls (unifiedOrder E self params) w →
   obj_get "notify_url" o =
     stringify_value (js_or (obj_get "notify_url" params) (notifyUrl self)))
  ∧ (CallBuildXml o ∈ new_calls (refund E self params) w →
     obj_get "op_user_id" o =
       stringify_value
         (if bool_decide ("op_user_id" ∈ keys params) then obj_get "op_user_id" params
          else default_or_undefined (mchId self))).
Proof.
  intros Hwf. split.
  - intros [_ ->]%(built_by_operation E self UnifiedOrder); [|done].
    by apply op_sent_operation_defaults.
  - intros [_ ->]%(built_by_operation E self Refund); [|done].
    by apply op_sent_operation_defaults.
Qed.
End Own_defaults.

(** *** The properties above on examples *)

Lemma caller_sign_is_sent_witness :
  wf_obj [("out_trade_no", VStr "7"); ("sign", VStr "mine")]
  ∧ obj_get "sign" [("out_trade_no", VStr "7"); ("sign", VStr "mine")] = VStr "mine"
  ∧ truthy (VStr "mine") = true
  ∧ (_getSign Mock.paid Mock.account
       (op_signed Mock.paid Mock.account OrderQuery
          [("out_trade_no", VStr "7"); ("sign", VStr "mine")] 0) VUndefined world0).1
    = Ok ("MD5(MCH_ID=Y&NONCE_STR=ABCDEFGHIJKLMNOPQRSTUVWXYZABCDEF&OUT_TRADE_NO=7"
          +:+ "&SERVICE=UNIFIED.TRADE.QUERY&SUB_APPID=WX1&KEY=K)")
  ∧ calls (run_operation Mock.paid Mock.account OrderQuery
             [("out_trade_no", VStr "7"); ("sign", VStr "mine")] world0).2
    = [CallDigest "MD5"
         ("mch_id=Y&nonce_str=ABCDEFGHIJKLMNOPQRSTUVWXYZabcdef&out_trade_no=7"
          +:+ "&service=unified.trade.query&sub_appid=wx1&key=K");
       CallBuildXml
         [("sign", VStr "mine"); ("mch_id", VStr "Y");
          ("nonce_str", VStr "ABCDEFGHIJKLMNOPQRSTUVWXYZabcdef");
          ("sub_appid", VStr "wx1"); ("out_trade_no", VStr "7");
          ("service", VStr "unified.trade.query")];
       CallHttp "https://pay.swiftpass.cn/pay/gateway"
         ("<xml><sign>mine</sign><mch_id>Y</mch_id>"
          +:+ "<nonce_str>ABCDEFGHIJKLMNOPQRSTUVWXYZabcdef</nonce_str>"
          +:+ "<sub_appid>wx1</sub_appid><out_trade_no>7</out_trade_no>"
          +:+ "<service>unified.trade.query</service></xml>");
       CallParseXml "<xml><pay_info>{}</pay_info></xml>"].
Proof.
  assert (wf_obj [("out_trade_no", VStr "7"); ("sign", VStr "mine")]) as Hwf
    by wf_by_compute.
  split_and!; [done|reflexivity|reflexivity| |].
  - exact (proj1 (proj2 (caller_sign_is_sent Mock.paid Mock.account OrderQuery
                          [("out_trade_no", VStr "7"); ("sign", VStr "mine")]
                          (VStr "mine") world0 Hwf eq_refl eq_refl))).
  - rewrite (proj2 (proj2 (proj2 (proj2
               (caller_sign_is_sent Mock.paid Mock.account OrderQuery
                  [("out_trade_no", VStr "7"); ("sign", VStr "mine")]
                  (VStr "mine") world0 Hwf eq_refl eq_refl))))).
    vm_compute. reflexivity.
Defined.

Lemma one_request_when_accepted_witness :
  wf_obj [("out_trade_no", VStr "7")]
  ∧ filter (λ c, is_transport c = true)
      (new_calls (run_operation Mock.paid Mock.account CloseOrder
                    [("out_trade_no", VStr "7")]) world0)
    = [CallHttp "https://pay.swiftpass.cn/pay/gateway"
         ("<xml><sign>MD5(MCH_ID=Y&NONCE_STR=ABCDEFGHIJKLMNOPQRSTUVWXYZABCDEF"
          +:+ "&OUT_TRADE_NO=7&SERVICE=UNIFIED.TRADE.CLOSE&SUB_APPID=WX1&KEY=K)</sign>"
          +:+ "<mch_id>Y</mch_id><nonce_str>ABCDEFGHIJKLMNOPQRSTUVWXYZabcdef</nonce_str>"
          +:+ "<sub_appid>wx1</sub_appid><out_trade_no>7</out_trade_no>"
          +:+ "<service>unified.trade.close</service></xml>")]
  ∧ wf_obj [("out_trade_no", VStr (String "7" (String "001" "")))]
  ∧ filter (λ c, is_transport c = true)
      (new_calls (run_operation Mock.paid Mock.account CloseOrder
                    [("out_trade_no", VStr (String "7" (String "001" "")))]) world0)
    = [].
Proof.
  assert (wf_obj [("out_trade_no", VStr "7")]) as Hwf by wf_by_compute.
  assert (wf_obj [("out_trade_no", VStr (String "7" (String "001" "")))]) as Hwf'
    by wf_by_compute.
  split_and!; [done| |done|].
  - rewrite (one_request_when_accepted Mock.paid Mock.account CloseOrder
               [("out_trade_no", VStr "7")] world0 Hwf).
    vm_compute. reflexivity.
  - rewrite (one_request_when_accepted Mock.paid Mock.account CloseOrder
               [("out_trade_no", VStr (String "7" (String "001" "")))] world0 Hwf').
    vm_compute. reflexivity.
Defined.


Lemma operation_succeeds_iff_witness :
  wf_obj [("out_trade_no", VStr "7")]
  ∧ accepted Mock.account CloseOrder [("out_trade_no", VStr "7")] = true.
Proof.
  assert (wf_obj [("out_trade_no", VStr "7")]) as Hwf by wf_by_compute.
  split; [done|].
  refine (proj1 (proj1 (operation_succeeds_iff Mock.paid Mock.account CloseOrder
                          [("out_trade_no", VStr "7")] world0
                          (Decoded (XObj [("pay_info", XText "{}")])) Hwf) _)).
  vm_compute. reflexivity.
Defined.

Lemma sent_signature_verifies_witness :
  let params := [("out_trade_no", VStr "7"); ("total_fee", VNum 100)] in
  let signature :=
    "MD5(MCH_ID=Y&NONCE_STR=ABCDEFGHIJKLMNOPQRSTUVWXYZABCDEF&OUT_TRADE_NO=7"
    +:+ "&SERVICE=UNIFIED.TRADE.QUERY&SUB_APPID=WX1&TOTAL_FEE=100&KEY=K)" in
  let o := [("sign", VStr signature); ("mch_id", VStr "Y");
            ("nonce_str", VStr "ABCDEFGHIJKLMNOPQRSTUVWXYZabcdef");
            ("sub_appid", VStr "wx1"); ("out_trade_no", VStr "7");
            ("total_fee", VStr "100"); ("service", VStr "unified.trade.query")] in
  wf_obj params
  ∧ ("sign" ∉ keys params)
  ∧ truthy (obj_get "long_url" params) = false
  ∧ CallBuildXml o ∈ new_calls (run_operation Mock.paid Mock.account OrderQuery params)
                       world0
  ∧ head (new_calls (run_operation Mock.paid Mock.account OrderQuery params) world0)
    = Some (CallDigest "MD5"
              ("mch_id=Y&nonce_str=ABCDEFGHIJKLMNOPQRSTUVWXYZabcdef&out_trade_no=7"
               +:+ "&service=unified.trade.query&sub_appid=wx1&total_fee=100&key=K"))
  ∧ (_getSign Mock.paid Mock.account o VUndefined world0).1 = Ok signature.
Proof.
  intros params signature o.
  assert (wf_obj params) as Hwf by wf_by_compute.
  assert ("sign" ∉ keys params) as Hs.
  { apply (bool_decide_unpack _). vm_compute. exact I. }
  assert (CallBuildXml o ∈ new_calls (run_operation Mock.paid Mock.account OrderQuery
                                        params) world0) as Hin.
  { apply (bool_decide_unpack _). vm_compute. exact I. }
  destruct (sent_signature_verifies Mock.paid Mock.account OrderQuery params world0 o
              Hwf Hs eq_refl Hin) as (Hhead & _ & Hverify).
  split_and!; [done|done|reflexivity|done|exact Hhead|].
  by rewrite Hverify.
Defined.

Lemma caller_sign_key_wins_witness :
  let params := [("out_trade_no", VStr "7"); ("sign", VStr "")] in
  let o := [("sign", VStr ""); ("mch_id", VStr "Y");
            ("nonce_str", VStr "ABCDEFGHIJKLMNOPQRSTUVWXYZabcdef");
            ("sub_appid", VStr "wx1"); ("out_trade_no", VStr "7");
            ("service", VStr "unified.trade.query")] in
  wf_obj params
  ∧ "sign" ∈ keys params
  ∧ CallBuildXml o ∈ new_calls (run_operation Mock.paid Mock.account OrderQuery params)
                       world0
  ∧ obj_get "sign" o = stringify_value (obj_get "sign" params).
Proof.
  intros params o.
  assert (wf_obj params) as Hwf by wf_by_compute.
  assert ("sign" ∈ keys params) as Hs.
  { apply (bool_decide_unpack _). vm_compute. exact I. }
  assert (CallBuildXml o ∈ new_calls (run_operation Mock.paid Mock.account OrderQuery
                                        params) world0) as Hin.
  { apply (bool_decide_unpack _). vm_compute. exact I. }
  split_and!; [done|done|done|].
  exact (caller_sign_key_wins Mock.paid Mock.account OrderQuery params world0 o
           Hwf Hs Hin).
Defined.

Lemma long_url_encoded_after_signing_witness :
  let params := [("out_trade_no", VStr "7"); ("long_url", VStr "weixin://x?a=1")] in
  let o := [("sign",
             VStr ("MD5(LONG_URL=WEIXIN://X?A=1&MCH_ID=Y"
                   +:+ "&NONCE_STR=ABCDEFGHIJKLMNOPQRSTUVWXYZABCDEF&OUT_TRADE_NO=7"
                   +:+ "&SERVICE=UNIFIED.TRADE.QUERY&SUB_APPID=WX1&KEY=K)"));
            ("mch_id", VStr "Y");
            ("nonce_str", VStr "ABCDEFGHIJKLMNOPQRSTUVWXYZabcdef");
            ("sub_appid", VStr "wx1"); ("out_trade_no", VStr "7");
            ("long_url", VStr "uri(weixin://x?a=1)");
            ("service", VStr "unified.trade.query")] in
  wf_obj params
  ∧ truthy (obj_get "long_url" params) = true
  ∧ CallBuildXml o ∈ new_calls (run_operation Mock.paid Mock.account OrderQuery params)
                       world0
  ∧ ∃ q,
      head (new_calls (run_operation Mock.paid Mock.account OrderQuery params) world0)
        = Some (CallDigest "MD5" (sign_input Mock.account q))
      ∧ obj_get "long_url" q = VStr "weixin://x?a=1"
      ∧ obj_get "long_url" o = VStr (encodeURIComponent Mock.paid "weixin://x?a=1").
Proof.
  intros params o.
  assert (wf_obj params) as Hwf by wf_by_compute.
  assert (CallBuildXml o ∈ new_calls (run_operation Mock.paid Mock.account OrderQuery
                                        params) world0) as Hin.
  { apply (bool_decide_unpack _). vm_compute. exact I. }
  split_and!; [done|reflexivity|done|].
  destruct (long_url_encoded_after_signing Mock.paid Mock.account OrderQuery params
              world0 o Hwf eq_refl Hin) as (q & Hhead & Hq & _ & Ho).
  exists q. split_and!; [exact Hhead|exact Hq|exact Ho].
Defined.

Lemma sent_account_defaults_witness :
  let params := [("out_trade_no", VStr "7"); ("mch_id", VStr "")] in
  let o := [("sign",
             VStr ("MD5(NONCE_STR=ABCDEFGHIJKLMNOPQRSTUVWXYZABCDEF&OUT_TRADE_NO=7"
                   +:+ "&SERVICE=UNIFIED.TRADE.QUERY&SUB_APPID=WX1&KEY=K)"));
            ("mch_id", VStr "");
            ("nonce_str", VStr "ABCDEFGHIJKLMNOPQRSTUVWXYZabcdef");
            ("sub_appid", VStr "wx1"); ("out_trade_no", VStr "7");
            ("service", VStr "unified.trade.query")] in
  wf_obj params
  ∧ "mch_id" ∈ ["mch_id"; "nonce_str"; "sub_appid"]
  ∧ CallBuildXml o ∈ new_calls (run_operation Mock.paid Mock.account OrderQuery params)
                       world0
  ∧ obj_get "mch_id" o = VStr "".
Proof.
  intros params o.
  assert (wf_obj params) as Hwf by wf_by_compute.
  assert ("mch_id" ∈ ["mch_id"; "nonce_str"; "sub_appid"]) as Hk by by left.
  assert (CallBuildXml o ∈ new_calls (run_operation Mock.paid Mock.account OrderQuery
                                        params) world0) as Hin.
  { apply (bool_decide_unpack _). vm_compute. exact I. }
  split_and!; [done|done|done|].
  exact (sent_account_defaults Mock.paid Mock.account OrderQuery params world0 o
           "mch_id" Hwf Hk Hin).
Defined.

Lemma built_mapping_keys_and_values_witness :
  let params := [("out_trade_no", VStr "7"); ("total_fee", VNum 100)] in
  let o := [("sign",
             VStr ("MD5(MCH_ID=Y&NONCE_STR=ABCDEFGHIJKLMNOPQRSTUVWXYZABCDEF"
                   +:+ "&OUT_TRADE_NO=7&SERVICE=UNIFIED.TRADE.QUERY&SUB_APPID=WX1"
                   +:+ "&TOTAL_FEE=100&KEY=K)"));
            ("mch_id", VStr "Y");
            ("nonce_str", VStr "ABCDEFGHIJKLMNOPQRSTUVWXYZabcdef");
            ("sub_appid", VStr "wx1"); ("out_trade_no", VStr "7");
            ("total_fee", VStr "100"); ("service", VStr "unified.trade.query")] in
  wf_obj params
  ∧ CallBuildXml o ∈ new_calls (run_operation Mock.paid Mock.account OrderQuery params)
                       world0
  ∧ ("notify_url" ∉ keys o)
  ∧ (∀ k, is_text_or_absent (obj_get k o) = true).
Proof.
  intros params o.
  assert (wf_obj params) as Hwf by wf_by_compute.
  assert (CallBuildXml o ∈ new_calls (run_operation Mock.paid Mock.account OrderQuery
                                        params) world0) as Hin.
  { apply (bool_decide_unpack _). vm_compute. exact I. }
  destruct (built_mapping_keys_and_values Mock.paid Mock.account OrderQuery params
              world0 o Hwf Hin) as (_ & Hkeys & Htext).
  split_and!; [done|done| |exact Htext].
  rewrite Hkeys. intros [?|[?|[Hk|[[Hk _]|[[? _]|[? _]]]]]]; try done.
  - apply (bool_decide_pack _) in Hk. by vm_compute in Hk.
  - apply (bool_decide_pack _) in Hk. by vm_compute in Hk.
Defined.

Lemma sent_operation_defaults_witness :
  let params := [("out_trade_no", VStr "7"); ("out_refund_no", VStr "r1");
                 ("total_fee", VNum 100); ("refund_fee", VNum 100)] in
  let o := [("sign",
             VStr ("MD5(MCH_ID=Y&NONCE_STR=GHIJKLMNOPQRSTUVWXYZ0123456789AB"
                   +:+ "&OP_USER_ID=Y&OUT_REFUND_NO=R1&OUT_TRADE_NO=7&REFUND_FEE=100"
                   +:+ "&SERVICE=UNIFIED.TRADE.REFUND&SUB_APPID=WX1&TOTAL_FEE=100"
                   +:+ "&KEY=K)"));
            ("mch_id", VStr "Y");
            ("nonce_str", VStr "ghijklmnopqrstuvwxyz0123456789AB");
            ("sub_appid", VStr "wx1"); ("op_user_id", VStr "Y");
            ("out_trade_no", VStr "7"); ("out_refund_no", VStr "r1");
            ("total_fee", VStr "100"); ("refund_fee", VStr "100");
            ("service", VStr "unified.trade.refund")] in
  wf_obj params
  ∧ CallBuildXml o ∈ new_calls (refund Mock.paid Mock.account params) world0
  ∧ obj_get "op_user_id" o = VStr "Y".
Proof.
  intros params o.
  assert (wf_obj params) as Hwf by wf_by_compute.
  assert (CallBuildXml o ∈ new_calls (refund Mock.paid Mock.account params) world0)
    as Hin.
  { apply (bool_decide_unpack _). vm_compute. exact I. }
  split_and!; [done|done|].
  exact (proj2 (sent_operation_defaults Mock.paid Mock.account params world0 o Hwf)
           Hin).
Defined.

(** ** More on the canonical string and the signature *)

Lemma string_app_assoc (a b c : string) : (a +:+ b) +:+ c = a +:+ (b +:+ c).
Proof.
  induction a as [|x a IH]; [done|].
  change (String x ((a +:+ b) +:+ c) = String x (a +:+ (b +:+ c))).
  by rewrite IH.
Qed.

Lemma string_app_nonempty (a b : string) : a ≠ "" → a +:+ b ≠ "".
Proof. by destruct a. Qed.

Lemma sort_sorted_id (l : list string) : Sorted str_le l → sort l = l.
Proof.
  intros Hl. apply (Sorted_unique str_le); [apply sort_sorted|done|apply sort_perm].
Qed.

(** Two well-formed objects with the same kept keys, reading the same on
    them, encode to the same string. *)
Lemma toQueryString_same_kept (o o' : obj) :
  wf_obj o → wf_obj o' →
  (∀ k, k ∈ keys o ∧ kept o k ↔ k ∈ keys o' ∧ kept o' k) →
  (∀ k, k ∈ keys o → kept o k → obj_get k o = obj_get k o') →
  _toQueryString o = _toQueryString o'.
Proof.
  intros Hwf Hwf' Hkept Hget. rewrite !toQueryString_unfold.
  assert (filter (kept o) (keys o) ≡ₚ filter (kept o') (keys o')) as Hf.
  { apply NoDup_Permutation; [by apply NoDup_filter..|].
    intros k. by rewrite !list_elem_of_filter, !(and_comm (kept _ k)). }
  rewrite <-(sort_unique _ _ Hf). f_equal. apply map_ext_in.
  intros k Hk%list_elem_of_In. rewrite sort_perm in Hk.
  apply list_elem_of_filter in Hk as [Hk1 Hk2]. by rewrite Hget.
Qed.

Section Blank.
Context (E : Env) (self : client).

(** A field whose value is undefined or the empty string takes no part in
    the canonical string nor in the signature: assigning it is as good as
    deleting the key. *)
Theorem blank_field_is_not_signed (o : obj) (k : string) (v signType : value)
    (w : world) :
  wf_obj o → v = VUndefined ∨ v = VStr "" →
  _toQueryString (obj_set k v o) = _toQueryString (obj_delete k o)
  ∧ _getSign E self (obj_set k v o) signType w
    = _getSign E self (obj_delete k o) signType w.
Proof.
  intros Hwf Hv.
  assert (∀ k' : string,
            (if String.eqb k' k then v else obj_get k' o) ≠ VUndefined
            ∧ (if String.eqb k' k then v else obj_get k' o) ≠ VStr ""
            ↔ k' ≠ k ∧ obj_get k' o ≠ VUndefined ∧ obj_get k' o ≠ VStr "") as Hblank.
  { intros k'. destruct (String.eqb_spec k' k) as [->|Hne].
    - split; [|tauto]. intros [H1 H2]. by destruct Hv as [->| ->].
    - tauto. }
  split.
  - apply toQueryString_same_kept;
      [by apply wf_obj_set|by apply wf_obj_delete| |].
    + intros k'. unfold kept.
      rewrite elem_of_keys_set, elem_of_keys_delete, obj_get_set, obj_get_delete.
      rewrite Hblank. destruct (String.eqb_spec k' k); tauto.
    + intros k' _. unfold kept. rewrite obj_get_set, obj_get_delete, Hblank.
      intros (Hne & _). by destruct (String.eqb_spec k' k).
  - apply getSign_cong. unfold sign_input. f_equal.
    apply toQueryString_same_kept;
      [by apply wf_obj_delete, wf_obj_set|by do 2 apply wf_obj_delete| |].
    + intros k'. unfold kept.
      rewrite !elem_of_keys_delete, elem_of_keys_set, !obj_get_delete,
        obj_get_set.
      destruct (String.eqb_spec k' "sign"); [tauto|].
      rewrite Hblank. destruct (String.eqb_spec k' k); tauto.
    + intros k' _. unfold kept.
      rewrite !obj_get_delete, obj_get_set.
      destruct (String.eqb_spec k' "sign"); [done|]. rewrite Hblank.
      intros (Hne & _). by destruct (String.eqb_spec k' k).
Qed.

(** Nothing in a value is escaped: a value that holds [&], a key and [=]
    encodes as the two fields it spells out, and the two mappings get the
    same signature. *)
Theorem canonical_string_has_no_escaping (k k' v v' : string) (signType : value)
    (w : world) :
  str_le k k' → k ≠ k' → k ≠ "sign" → k' ≠ "sign" → v ≠ "" → v' ≠ "" →
  _toQueryString [(k, VStr (v +:+ "&" +:+ k' +:+ "=" +:+ v'))]
    = _toQueryString [(k, VStr v); (k', VStr v')]
  ∧ _getSign E self [(k, VStr (v +:+ "&" +:+ k' +:+ "=" +:+ v'))] signType w
    = _getSign E self [(k, VStr v); (k', VStr v')] signType w.
Proof.
  intros Hle Hne Hks Hk's Hv Hv'.
  assert (_toQueryString [(k, VStr (v +:+ "&" +:+ k' +:+ "=" +:+ v'))]
          = _toQueryString [(k, VStr v); (k', VStr v')]) as Hq.
  { rewrite !toQueryString_unfold. unfold keys. cbn [fmap list_fmap fst].
    rewrite (filter_cons_True _ k []).
    2:{ unfold kept. cbn [obj_get]. rewrite String.eqb_refl. split; [done|].
        intros [= Heq]. by apply string_app_nonempty in Heq. }
    rewrite (filter_cons_True _ k [k']).
    2:{ unfold kept. cbn [obj_get]. rewrite String.eqb_refl. split; congruence. }
    rewrite (filter_cons_True _ k' []).
    2:{ unfold kept. cbn [obj_get]. rewrite String.eqb_refl.
        destruct (String.eqb_spec k' k); [congruence|]. split; congruence. }
    rewrite !filter_nil.
    rewrite !sort_sorted_id by (repeat constructor; done).
    cbn [map obj_get ToString]. rewrite !String.eqb_refl.
    destruct (String.eqb_spec k' k); [congruence|].
    unfold join. cbn [String.concat].
    by rewrite !string_app_assoc. }
  split; [done|].
  apply getSign_cong. unfold sign_input, obj_delete.
  rewrite !filter_cons_True, !filter_nil by done. by rewrite Hq.
Qed.
End Blank.

Lemma blank_field_is_not_signed_witness :
  wf_obj [("a", VNum 1); ("b", VStr "x")] ∧ (VStr "" = VUndefined ∨ VStr "" = VStr "")
  ∧ _toQueryString (obj_set "b" (VStr "") [("a", VNum 1); ("b", VStr "x")])
    = _toQueryString (obj_delete "b" [("a", VNum 1); ("b", VStr "x")]).
Proof.
  assert (wf_obj [("a", VNum 1); ("b", VStr "x")]) as Hwf by wf_by_compute.
  split; [done|]. split; [by right|].
  exact (proj1 (blank_field_is_not_signed Mock.paid Mock.account _ "b" (VStr "")
                  VUndefined world0 Hwf (or_intror eq_refl))).
Defined.

Lemma canonical_string_has_no_escaping_witness :
  str_le "a" "b" ∧ "a" ≠ "b" ∧ "a" ≠ "sign" ∧ "b" ≠ "sign" ∧ "1" ≠ "" ∧ "2" ≠ ""
  ∧ _toQueryString [("a", VStr "1&b=2")] = _toQueryString [("a", VStr "1"); ("b", VStr "2")].
Proof.
  do 6 (split; [done|]).
  exact (proj1 (canonical_string_has_no_escaping Mock.paid Mock.account
                  "a" "b" "1" "2" VUndefined world0
                  I ltac:(done) ltac:(done) ltac:(done) ltac:(done) ltac:(done))).
Defined.

(** ** The nonce *)

Lemma charAt_in_range (s : string) (i : nat) :
  (i < String.length s)%nat →
  ∃ c, charAt s i = String c "" ∧ has_char c s = true.
Proof.
  revert i. induction s as [|x s IH]; intros i Hi; cbn in Hi; [lia|].
  destruct i as [|i].
  - exists x. split; [done|]. cbn. by rewrite Ascii.eqb_refl.
  - destruct (IH i) as (c & Hc & Hin); [lia|].
    exists c. split; [exact Hc|]. cbn. rewrite Hin. apply orb_true_r.
Qed.

Lemma nonce_text_spec (E : Env) (n : nat) (acc : string) (d : nat) :
  (∀ k, (random_floor E k (String.length nonce_chars)
         < String.length nonce_chars)%nat) →
  length (chars_of (nonce_text E n acc d)) = (length (chars_of acc) + n)%nat
  ∧ (Forall (λ c, has_char c nonce_chars = true) (chars_of acc) →
     Forall (λ c, has_char c nonce_chars = true) (chars_of (nonce_text E n acc d))).
Proof.
  intros Hrange. revert acc d. induction n as [|n IH]; intros acc d.
  { cbn [nonce_text]. split; [lia|done]. }
  cbn [nonce_text].
  destruct (charAt_in_range nonce_chars
              (random_floor E d (String.length nonce_chars)) (Hrange d))
    as (c & Hc & Hin).
  rewrite Hc.
  destruct (IH (acc +:+ String c "") (S d)) as [Hlen Hall].
  rewrite chars_of_app in Hlen, Hall. cbn [chars_of] in Hlen, Hall.
  rewrite length_app in Hlen. cbn [length] in Hlen. split; [lia|].
  intros Hacc. apply Hall. apply Forall_app. split; [done|].
  by apply Forall_singleton.
Qed.

(** As long as every draw falls inside the alphabet, as [Math.floor] of
    [Math.random() * 62] does, a nonce has as many characters as asked for,
    32 when none or zero is asked for, each of them a letter or a digit of
    the alphabet; it costs that many draws and calls no library. *)
Theorem generateNonceStr_spec (E : Env) (len : option nat) (w : world) :
  (∀ k, (random_floor E k (String.length nonce_chars)
         < String.length nonce_chars)%nat) →
  let n := match len with
           | None | Some O => 32%nat
           | Some n => n
           end in
  ∃ s,
    _generateNonceStr E len w = (Ok s, World (n + draws w) (calls w))
    ∧ String.length s = n
    ∧ Forall (λ c, has_char c nonce_chars = true) (chars_of s).
Proof.
  intros Hrange n. exists (nonce_text E n "" (draws w)).
  destruct (nonce_text_spec E n "" (draws w) Hrange) as [Hlen Hall].
  split_and!.
  - unfold _generateNonceStr. fold n. apply nonce_loop_run.
  - by rewrite <-length_chars_of, Hlen.
  - apply Hall, Forall_nil_2.
Qed.

Lemma generateNonceStr_spec_witness :
  (∀ k, (random_floor Mock.paid k (String.length nonce_chars)
         < String.length nonce_chars)%nat)
  ∧ ∃ s, _generateNonceStr Mock.paid (Some 5%nat) world0 = (Ok s, World 5 [])
         ∧ String.length s = 5%nat.
Proof.
  assert (∀ k, (random_floor Mock.paid k (String.length nonce_chars)
                < String.length nonce_chars)%nat) as Hrange.
  { intros k. change (k mod 62 < 62)%nat. apply Nat.mod_upper_bound. lia. }
  split; [exact Hrange|].
  destruct (generateNonceStr_spec Mock.paid (Some 5%nat) world0 Hrange)
    as (s & Hrun & Hlen & _).
  exists s. split; [exact Hrun|exact Hlen].
Defined.

(** ** More on the report decoder *)

Lemma obj_set_absent (k : string) (v : value) (o : obj) :
  k ∉ keys o → obj_set k v o = o ++ [(k, v)].
Proof.
  unfold keys. induction o as [|[k' v'] o IH]; [done|].
  rewrite fmap_cons, not_elem_of_cons. cbn [fst obj_set]. intros [Hne Hk].
  destruct (String.eqb_spec k k'); [done|]. by rewrite IH.
Qed.

Lemma three_rows_split (l : list string) :
  (3 ≤ length l)%nat → ∃ t body s1 s2, l = t :: body ++ [s1; s2].
Proof.
  destruct l as [|t rest]; cbn [length]; [lia|]. intros Hlen.
  exists t, (take (length rest - 2) rest).
  pose proof (take_drop (length rest - 2) rest) as Hsplit.
  pose proof (length_drop rest (length rest - 2)) as Hd.
  destruct (drop (length rest - 2) rest) as [|s1 [|s2 [|s3 tl]]];
    cbn [length] in Hd; try lia.
  exists s1, s2. by rewrite Hsplit.
Qed.

(** [parseCsv] needs three rows: with fewer, once the text is trimmed and
    split, it throws a TypeError; with three or more it returns a report
    whose [list] has all rows but the first and the last two, and whose
    [stat] is there. *)
Theorem parseCsv_rows (text : string) :
  ((length (split_lines (trim text)) ≤ 2)%nat ↔ parseCsv text = Throw TypeError)
  ∧ ((3 ≤ length (split_lines (trim text)))%nat ↔
     ∃ l st, parseCsv text = Ok (Report l (Some st))
             ∧ length l = (length (split_lines (trim text)) - 3)%nat).
Proof.
  assert ((3 ≤ length (split_lines (trim text)))%nat →
          ∃ l st, parseCsv text = Ok (Report l (Some st))
                  ∧ length l = (length (split_lines (trim text)) - 3)%nat) as Hok.
  { intros Hlen. destruct (three_rows_split _ Hlen) as (t & body & s1 & s2 & Hrows).
    eexists _, _. split; [by apply parseCsv_table|].
    rewrite Hrows, length_map. cbn [length]. rewrite length_app. cbn [length]. lia. }
  split; split.
  - apply parseCsv_short.
  - intros Hthrow.
    destruct (decide (3 ≤ length (split_lines (trim text)))%nat) as [Hlen|]; [|lia].
    destruct (Hok Hlen) as (l & st & Hrun & _). congruence.
  - exact Hok.
  - intros (l & st & Hrun & _).
    destruct (decide (3 ≤ length (split_lines (trim text)))%nat) as [|Hlen]; [done|].
    rewrite parseCsv_short in Hrun by lia. done.
Qed.

(** When the titles are all different and a row has no more cells than
    there are titles, the object of the row pairs the titles with the
    values of the cells, in order, position by position. *)
Theorem toArr_row_zip (titles : list string) (row : string) :
  NoDup titles → (length (split_on "," row) ≤ length titles)%nat →
  toArr_row titles row =
    zip titles (map (λ cell, second (split_on "`" cell)) (split_on "," row)).
Proof.
  intros Hnd. unfold toArr_row. generalize (split_on "," row). intros cells.
  induction cells as [|cell cells IH] using rev_ind; intros Hlen.
  { by destruct titles. }
  rewrite length_app in Hlen. cbn [length] in Hlen.
  rewrite imap_app, fold_left_app, IH by lia. cbn [imap fold_left fst snd].
  rewrite Nat.add_0_r, map_app. cbn [map].
  destruct (lookup_lt_is_Some_2 titles (length cells)) as [t Ht]; [lia|].
  rewrite Ht. cbn [property_key].
  set (vals := map (λ cell, second (split_on "`" cell)) cells).
  assert (length vals = length cells) as Hvals by apply length_map.
  rewrite obj_set_absent.
  2:{ unfold keys. rewrite <-(zip_with_take_l pair titles vals), fst_zip
        by (rewrite length_take; lia).
      rewrite Hvals. intros Hin.
      rewrite <-(take_drop_middle titles (length cells) t Ht) in Hnd.
      apply NoDup_app in Hnd as (_ & Hdisj & _). apply (Hdisj t Hin). by left. }
  rewrite <-(take_drop_middle titles (length cells) t Ht) at 2.
  rewrite zip_with_app by (rewrite length_take; lia).
  cbn [zip_with]. f_equal.
  - by rewrite <-Hvals, zip_with_take_l.
  - by destruct (drop _ _).
Qed.

Lemma toArr_row_zip_witness :
  NoDup ["h1"; "h2"; "h3"]
  ∧ (length (split_on "," "x`1,y`2") ≤ length ["h1"; "h2"; "h3"])%nat
  ∧ toArr_row ["h1"; "h2"; "h3"] "x`1,y`2" = [("h1", VStr "1"); ("h2", VStr "2")].
Proof.
  assert (NoDup ["h1"; "h2"; "h3"]) as Hnd.
  { apply (bool_decide_unpack _). vm_compute. exact I. }
  assert (length (split_on "," "x`1,y`2") ≤ length ["h1"; "h2"; "h3"])%nat as Hlen.
  { vm_compute. lia. }
  split; [exact Hnd|]. split; [exact Hlen|].
  exact (toArr_row_zip ["h1"; "h2"; "h3"] "x`1,y`2" Hnd Hlen).
Defined.



(** ** The parameter builders for the in-app bridge *)

Section Bridge_properties.
Context (E : Env) (self : client).

(** [getEditAddressParams] checks its two inputs first: when [url] or
    [accessToken] is falsy the callback gets the error and nothing is drawn
    or digested.  Otherwise the parameters come back with [addrSign] the
    SHA1 digest, as the library returns it, of the canonical string of the
    access token, the nonce, the time stamp and the address: no [appid] is
    in that string and [appId] is undefined, the client having no such
    field; no key is appended. *)
Theorem getEditAddressParams_spec (timeStamp : string) (data : obj) (w : world) :
  (∀ k, (random_floor E k (String.length nonce_chars)
         < String.length nonce_chars)%nat) →
  timeStamp ≠ "" →
  if truthy (obj_get "url" data) && truthy (obj_get "accessToken" data) then
    let nonce := nonce_at E (draws w) in
    let string :=
      join "&" ["accesstoken=" +:+ ToString (obj_get "accessToken" data);
                "noncestr=" +:+ nonce;
                "timestamp=" +:+ timeStamp;
                "url=" +:+ ToString (obj_get "url" data)] in
    getEditAddressParams E self timeStamp data w =
      (Ok (inr [("appId", VUndefined); ("scope", VStr "jsapi_address");
                ("signType", VStr "SHA1"); ("timeStamp", VStr timeStamp);
                ("nonceStr", VStr nonce); ("addrSign", VStr (sha1 E string))]),
       World (32 + draws w) (calls w ++ [CallDigest "SHA1" string]))
  else
    getEditAddressParams E self timeStamp data w =
      (Ok (inl (ErrObject "Error" "Missing url or accessToken")), w).
Proof.
  intros Hrange Hts. unfold getEditAddressParams.
  destruct (truthy (obj_get "url" data)) eqn:Hu;
    destruct (truthy (obj_get "accessToken" data)) eqn:Ht; try reflexivity.
  cbn [andb negb]. cbn zeta.
  unfold mbind at 1. unfold M_bind at 1. rewrite generateNonceStr_run.
  assert (nonce_at E (draws w) ≠ "") as Hnonce.
  { destruct (nonce_text_spec E 32 "" (draws w) Hrange) as [Hlen _].
    unfold nonce_at. intros Heq. rewrite Heq in Hlen. cbn in Hlen. lia. }
  set (nonce := nonce_at E (draws w)) in *.
  assert (∀ v, truthy v = true → v ≠ VUndefined ∧ v ≠ VStr "") as Hkept.
  { intros v Hv. split; intros ->; simpl in Hv; discriminate. }
  unfold appId.
  cbn [obj_literal fold_left obj_set obj_get fst snd String.eqb Ascii.eqb Bool.eqb
       ToString].
  rewrite toQueryString_unfold. unfold keys. cbn [fmap list_fmap fst].
  rewrite filter_cons_False by (unfold kept; cbn; tauto).
  rewrite filter_cons_True by (unfold kept; cbn; by apply Hkept).
  rewrite filter_cons_True
    by (unfold kept; cbn; split; [discriminate|intros [= Heq]; contradiction]).
  rewrite filter_cons_True
    by (unfold kept; cbn; split; [discriminate|intros [= Heq]; contradiction]).
  rewrite filter_cons_True by (unfold kept; cbn; by apply Hkept).
  rewrite filter_nil.
  change (sort ["url"; "timestamp"; "noncestr"; "accesstoken"])
    with ["accesstoken"; "noncestr"; "timestamp"; "url"].
  cbn [map obj_get String.eqb Ascii.eqb Bool.eqb ToString].
  reflexivity.
Qed.

Lemma wf_brand_order (order : obj) (d : nat) : wf_obj (brand_order E self order d).
Proof. apply wf_extend, wf_extendObject. Qed.

(** But for [notify_url], the order handed to [unifiedOrder] reads as the
    caller's and has the caller's keys. *)
Lemma obj_get_brand_order (order : obj) (d : nat) (k : string) :
  wf_obj order → k ≠ "notify_url" →
  obj_get k (brand_order E self order d) = obj_get k order
  ∧ (k ∈ keys (brand_order E self order d) ↔ k ∈ keys order).
Proof.
  intros Hwf Hk. unfold brand_order. split.
  - rewrite obj_get_extend_wf by done. case_bool_decide as Hin; [done|].
    rewrite (obj_get_absent k order) by done. rewrite obj_get_extendObject.
    rewrite bool_decide_eq_false_2 by by rewrite list_elem_of_singleton.
    done.
  - rewrite elem_of_keys_extend, keys_extendObject, list_elem_of_singleton. tauto.
Qed.

Lemma accepted_brand_order (order : obj) (d : nat) :
  wf_obj order →
  accepted self UnifiedOrder (brand_order E self order d)
  = accepted self UnifiedOrder order.
Proof.
  intros Hwf. unfold accepted.
  destruct (obj_get_brand_order order d "mch_id" Hwf) as [_ Hkeys]; [done|].
  rewrite (bool_decide_ext _ _ Hkeys).
  assert (∀ k, k ≠ "notify_url" →
               obj_get k (brand_order E self order d) = obj_get k order) as Hget.
  { intros k Hk. by apply obj_get_brand_order. }
  by rewrite !Hget.
Qed.

Section Brand.
Context {J : Type} (JSON_parse : string → result J).

(** [getBrandWCPayRequestParams] draws two nonces and runs [unifiedOrder]. *)
Lemma brand_run (order : obj) (w : world) :
  getBrandWCPayRequestParams E self JSON_parse order w =
    match run_operation E self UnifiedOrder (brand_order E self order (draws w))
            (World (64 + draws w) (calls w)) with
    | (Ok r, w') =>
        match reply_err r with
        | Some err => (Ok (inl err), w')
        | None =>
            match pay_info_text (reply_data r) with
            | Ok text =>
                match JSON_parse text with
                | Ok j => (Ok (inr j), w')
                | Throw e => (Throw e, w')
                end
            | Throw e => (Throw e, w')
            end
        end
    | (Throw e, w') => (Throw e, w')
    end.
Proof.
  unfold getBrandWCPayRequestParams.
  unfold mbind at 1. unfold M_bind at 1. rewrite generateNonceStr_run.
  unfold mbind at 1. unfold M_bind at 1. rewrite extendWithDefault_run.
  cbn [draws calls]. fold (brand_order E self order (draws w)).
  rewrite Nat.add_assoc. change (32 + 32)%nat with 64%nat.
  unfold mbind at 1. unfold M_bind at 1. cbn [run_operation].
  destruct (unifiedOrder E self _ _) as [[r|e] w']; [|done].
  destruct (reply_err r); [done|].
  unfold mbind, M_bind, lift, mret, M_ret.
  destruct (pay_info_text _); [|done]. by destruct (JSON_parse _).
Qed.

(** An order that lacks a required group is turned down as [unifiedOrder]
    turns it down: the callback gets the error that names the groups, the
    digest is the one call made, and [JSON.parse] has no say. *)
Theorem brand_rejects_like_unifiedOrder (order : obj) (w : world) :
  wf_obj order → accepted self UnifiedOrder order = false →
  let o := brand_order E self order (draws w) in
  let q := op_signed E self UnifiedOrder o (64 + draws w) in
  let p := op_sent E self UnifiedOrder o (64 + draws w) in
  getBrandWCPayRequestParams E self JSON_parse order w =
    (Ok (inl (ErrText ("missing params " +:+
                       join "," (missing_groups p (required_of UnifiedOrder))))),
     World (96 + draws w) (calls w ++ [CallDigest "MD5" (sign_input self q)])).
Proof.
  intros Hwf Hacc. cbn zeta. rewrite brand_run, operation_run.
  unfold pipeline_outcome. cbn [draws calls op_draws].
  fold (op_sent E self UnifiedOrder (brand_order E self order (draws w)) (64 + draws w)).
  rewrite no_missing_group_iff by apply wf_brand_order.
  rewrite accepted_brand_order, Hacc by done. cbn [reply_err].
  by rewrite Nat.add_assoc.
Qed.

(** When the order has every required group, the builder returns a
    document, the gateway answers it, and the answer has root [xml] and a
    [pay_info] with some text, the callback gets what [JSON.parse] makes of
    that text, and the call throws when [JSON.parse] throws. *)
Theorem brand_parses_pay_info (order : obj) (w : world) (xml body s : string)
    (d : xmlvalue) :
  wf_obj order → accepted self UnifiedOrder order = true →
  buildObject E
    (op_sent E self UnifiedOrder (brand_order E self order (draws w))
       (64 + draws w)) = Ok xml →
  transport_answer E self false xml = Ok (inr body) →
  parseString E body = ParseRoot "xml" d →
  xml_prop "pay_info" d = Some (XText s) → s ≠ "" →
  (getBrandWCPayRequestParams E self JSON_parse order w).1 =
    match JSON_parse s with
    | Ok j => Ok (inr j)
    | Throw e => Throw e
    end.
Proof.
  intros Hwf Hacc Hbuild Hans Hparse Hpay Hs. rewrite brand_run, operation_run.
  unfold pipeline_outcome. cbn [draws calls op_draws op_https].
  fold (op_sent E self UnifiedOrder (brand_order E self order (draws w)) (64 + draws w)).
  rewrite no_missing_group_iff by apply wf_brand_order.
  rewrite accepted_brand_order, Hacc, Hbuild, Hans, Hparse by done.
  cbn [validate_callback String.eqb Ascii.eqb Bool.eqb]. rewrite Hpay.
  cbn [xml_truthy]. destruct (String.eqb_spec s ""); [done|].
  cbn [negb reply_err reply_data pay_info_text]. rewrite Hpay.
  by destruct (JSON_parse s).
Qed.
End Brand.
End Bridge_properties.

Lemma getEditAddressParams_spec_witness :
  (∀ k, (random_floor Mock.paid k (String.length nonce_chars)
         < String.length nonce_chars)%nat)
  ∧ "1700000000" ≠ ""
  ∧ getEditAddressParams Mock.paid Mock.account "1700000000"
      [("url", VStr "http://a/?code=1"); ("accessToken", VStr "tok")] world0 =
      (Ok (inr [("appId", VUndefined); ("scope", VStr "jsapi_address");
                ("signType", VStr "SHA1"); ("timeStamp", VStr "1700000000");
                ("nonceStr", VStr "ABCDEFGHIJKLMNOPQRSTUVWXYZabcdef");
                ("addrSign",
                 VStr ("sha1(accesstoken=tok&noncestr=ABCDEFGHIJKLMNOPQRSTUVWXYZabcdef"
                       +:+ "&timestamp=1700000000&url=http://a/?code=1)"))]),
       World 32
         [CallDigest "SHA1"
            ("accesstoken=tok&noncestr=ABCDEFGHIJKLMNOPQRSTUVWXYZabcdef"
             +:+ "&timestamp=1700000000&url=http://a/?code=1")]).
Proof.
  assert (∀ k, (random_floor Mock.paid k (String.length nonce_chars)
                < String.length nonce_chars)%nat) as Hrange.
  { intros k. change (k mod 62 < 62)%nat. apply Nat.mod_upper_bound. lia. }
  assert ("1700000000" ≠ "") as Hts by done.
  split; [exact Hrange|]. split; [exact Hts|].
  exact (getEditAddressParams_spec Mock.paid Mock.account "1700000000"
           [("url", VStr "http://a/?code=1"); ("accessToken", VStr "tok")] world0
           Hrange Hts).
Defined.

Lemma brand_rejects_like_unifiedOrder_witness :
  wf_obj [("body", VStr "tea")]
  ∧ accepted Mock.account UnifiedOrder [("body", VStr "tea")] = false
  ∧ (getBrandWCPayRequestParams Mock.paid Mock.account (λ s, Ok s)
       [("body", VStr "tea")] world0).1
    = Ok (inl (ErrText "missing params out_trade_no,total_fee,mch_create_ip")).
Proof.
  assert (wf_obj [("body", VStr "tea")]) as Hwf by wf_by_compute.
  split; [done|]. split; [reflexivity|].
  rewrite (brand_rejects_like_unifiedOrder Mock.paid Mock.account (λ s, Ok s)
             [("body", VStr "tea")] world0 Hwf eq_refl).
  vm_compute. reflexivity.
Defined.

Lemma brand_parses_pay_info_witness :
  wf_obj [("body", VStr "tea"); ("out_trade_no", VStr "7"); ("total_fee", VNum 1);
          ("mch_create_ip", VStr "127.0.0.1")]
  ∧ (getBrandWCPayRequestParams Mock.paid Mock.account (λ s, Ok s)
       [("body", VStr "tea"); ("out_trade_no", VStr "7"); ("total_fee", VNum 1);
        ("mch_create_ip", VStr "127.0.0.1")] world0).1
    = Ok (inr "{}").
Proof.
  assert (wf_obj [("body", VStr "tea"); ("out_trade_no", VStr "7");
                  ("total_fee", VNum 1); ("mch_create_ip", VStr "127.0.0.1")]) as Hwf
    by wf_by_compute.
  split; [done|].
  exact (brand_parses_pay_info Mock.paid Mock.account (λ s, Ok s) _ world0
           _ "<xml><pay_info>{}</pay_info></xml>" "{}"
           (XObj [("pay_info", XText "{}")])
           Hwf eq_refl eq_refl eq_refl eq_refl eq_refl ltac:(done)).
Defined.

Lemma rejected_iff_not_accepted_witness :
  wf_obj [("mch_id", VStr ""); ("body", VStr "tea"); ("out_trade_no", VStr "7");
          ("total_fee", VNum 0); ("mch_create_ip", VStr "127.0.0.1")]
  ∧ ∃ missing,
      missing ≠ []
      ∧ (run_operation Mock.paid Mock.account UnifiedOrder
           [("mch_id", VStr ""); ("body", VStr "tea"); ("out_trade_no", VStr "7");
            ("total_fee", VNum 0); ("mch_create_ip", VStr "127.0.0.1")] world0).1
        = Ok (Reply (Some (ErrText ("missing params " +:+ join "," missing))) NoData).
Proof.
  assert (wf_obj [("mch_id", VStr ""); ("body", VStr "tea"); ("out_trade_no", VStr "7");
                  ("total_fee", VNum 0); ("mch_create_ip", VStr "127.0.0.1")]) as Hwf
    by wf_by_compute.
  split; [done|].
  destruct (proj1 (rejected_iff_not_accepted Mock.paid Mock.account UnifiedOrder
                     _ world0 Hwf) eq_refl) as (missing & Hne & Hrun).
  exists missing. split; [exact Hne|]. by rewrite Hrun.
Defined.
